(** * picklescan: a shallow embedding of [src/picklescan/scanner.py]

    The development follows the layout of the scanner:
    - Python values carried by pickle operations, exceptions, byte streams;
    - the two classifier tables and the classifier;
    - the global extractor ([_list_globals]) with its memo table;
    - [ScanResult], [merge] (as a function on values and as a method on
      heap objects), [_build_scan_result_from_raw_globals],
      [scan_pickle_bytes], [scan_pytorch] and [scan_bytes];
    - a reference opcode reader for closed examples;
    - the theorems. *)

From Stdlib Require Import ZArith List Lia.
From Stdlib.Strings Require Import String Ascii Byte.
From stdpp Require Import base decidable countable gmap strings pretty list.

Local Open Scope string_scope.
Local Open Scope list_scope.
Local Open Scope Z_scope.

(** ** Python values

    The argument of a pickle operation is untyped in the source
    ([op[1]]).  The values that matter to the scanner are [None],
    integers, text and bytes.  A [str] is represented by its UTF-8
    encoding, so that equality, substring tests and splitting on a space
    coincide with Python's. *)
Inductive pyval : Type :=
  | PNone
  | PInt (z : Z)
  | PStr (s : string)
  | PBytes (b : string).

#[global] Instance pyval_eq_dec : EqDecision pyval.
Proof. solve_decision. Defined.

Definition pyval_code (v : pyval) : (unit + Z) + (string + string) :=
  match v with
  | PNone => inl (inl tt)
  | PInt z => inl (inr z)
  | PStr s => inr (inl s)
  | PBytes b => inr (inr b)
  end.

Definition pyval_decode (c : (unit + Z) + (string + string)) : pyval :=
  match c with
  | inl (inl _) => PNone
  | inl (inr z) => PInt z
  | inr (inl s) => PStr s
  | inr (inr b) => PBytes b
  end.

#[global] Instance pyval_countable : Countable pyval.
Proof.
  apply (inj_countable' pyval_code pyval_decode).
  intros []; reflexivity.
Defined.

(** ** Exceptions and results

    [GenOpsError] is the scanner's own exception; it carries the message
    and the globals found so far ([None] when there are none).  The other
    constructors are the built-in exceptions the scanner can let escape
    and the [InvalidMagicError] of [picklescan.torch]. *)
Inductive exn : Type :=
  | GenOpsError (msg : string) (globals : option (gset (list pyval)))
  | ValueError (msg : string)
  | KeyError (key : pyval)
  | TypeError
  | AttributeError
  | IndexError
  | OSError
  | InvalidMagicError (magic : option Z).

Inductive res (A : Type) : Type :=
  | Ok (a : A)
  | Raise (e : exn).
Arguments Ok {A} a.
Arguments Raise {A} e.

(** Sequencing: an exception raised by [m] skips the rest. *)
Definition bind {A B : Type} (m : res A) (k : A -> res B) : res B :=
  match m with
  | Ok a => k a
  | Raise e => Raise e
  end.

Notation "'let*' x ':=' m 'in' k" := (bind m (fun x => k))
  (at level 10, x name, m at level 100, k at level 200).
Notation "'let*' ' p ':=' m 'in' k" := (bind m (fun x => match x with p => k end))
  (at level 10, p pattern, m at level 100, k at level 200).

(** ** Text helpers *)

(** [needle in hay] on two [str] values. *)
Fixpoint str_contains (needle hay : string) : bool :=
  if String.prefix needle hay then true
  else match hay with
       | EmptyString => false
       | String _ rest => str_contains needle rest
       end.

(** [s.split(" ", 1)]: at most one split, at the first space. *)
Fixpoint split_space_once (s : string) : list string :=
  match s with
  | EmptyString => [EmptyString]
  | String c rest =>
      if Ascii.eqb c " "%char then [EmptyString; rest]
      else match split_space_once rest with
           | hd :: tl => String c hd :: tl
           | [] => [String c EmptyString]
           end
  end.

(** ** Data model (scanner.py, lines 25-51) *)

Inductive SafetyLevel : Type :=
  | Innocuous
  | Suspicious
  | Dangerous.

#[global] Instance SafetyLevel_eq_dec : EqDecision SafetyLevel.
Proof. solve_decision. Defined.

(** The fields of [Global] are not typed at run time: [module] and [name]
    hold whatever the extractor produced. *)
Record Global : Type := mkGlobal {
  module : pyval;
  name : pyval;
  safety : SafetyLevel
}.

#[global] Instance Global_eq_dec : EqDecision Global.
Proof. solve_decision. Defined.

Record ScanResult : Type := mkScanResult {
  globals : list Global;
  scanned_files : Z;
  issues_count : Z;
  infected_files : Z;
  scan_err : bool
}.

(** [ScanResult.merge], as the new value of the receiver. *)
Definition merge (self sr : ScanResult) : ScanResult :=
  {| globals := globals self ++ globals sr;
     scanned_files := scanned_files self + scanned_files sr;
     issues_count := issues_count self + issues_count sr;
     infected_files := infected_files self + infected_files sr;
     scan_err := scan_err self || scan_err sr |}.

(** [sr.scanned_files = v] *)
Definition set_scanned_files (sr : ScanResult) (v : Z) : ScanResult :=
  {| globals := globals sr;
     scanned_files := v;
     issues_count := issues_count sr;
     infected_files := infected_files sr;
     scan_err := scan_err sr |}.

(** ** Classifier tables (scanner.py, lines 66-147)

    A filter is what the dictionaries hold: a Python [set] of names or a
    Python [str].  The source writes the wildcard as the string ["*"] and
    a single name as a bare string. *)
Inductive pyfilter : Type :=
  | FSet (names : list string)
  | FStr (s : string).

Definition _safe_globals : gmap string pyfilter :=
  list_to_map [
    ("collections", FSet ["OrderedDict"]);
    ("torch", FSet [
       "LongStorage"; "FloatStorage"; "HalfStorage"; "QUInt2x4Storage";
       "QUInt4x2Storage"; "QInt32Storage"; "QInt8Storage"; "QUInt8Storage";
       "ComplexFloatStorage"; "ComplexDoubleStorage"; "DoubleStorage";
       "BFloat16Storage"; "BoolStorage"; "CharStorage"; "ShortStorage";
       "IntStorage"; "ByteStorage"]);
    ("numpy", FSet ["dtype"; "ndarray"]);
    ("numpy._core.multiarray", FSet ["_reconstruct"]);
    ("numpy.core.multiarray", FSet ["_reconstruct"]);
    ("torch._utils", FSet ["_rebuild_tensor_v2"])
  ].

Definition _unsafe_globals : gmap string pyfilter :=
  list_to_map [
    ("__builtin__", FSet ["eval"; "compile"; "getattr"; "apply"; "exec";
                          "open"; "breakpoint"]);
    ("builtins", FSet ["eval"; "compile"; "getattr"; "apply"; "exec";
                       "open"; "breakpoint"]);
    ("aiohttp.client", FStr "*");
    ("asyncio", FStr "*");
    ("bdb", FStr "*");
    ("commands", FStr "*");
    ("functools", FStr "partial");
    ("httplib", FStr "*");
    ("numpy.testing._private.utils", FStr "*");
    ("nt", FStr "*");
    ("posix", FStr "*");
    ("operator", FStr "attrgetter");
    ("os", FStr "*");
    ("requests.api", FStr "*");
    ("runpy", FStr "*");
    ("shutil", FStr "*");
    ("socket", FStr "*");
    ("ssl", FStr "*");
    ("subprocess", FStr "*");
    ("sys", FStr "*");
    ("pdb", FStr "*");
    ("pickle", FStr "*");
    ("_pickle", FStr "*");
    ("pip", FStr "*");
    ("pydoc", FStr "pipepager");
    ("timeit", FStr "*");
    ("torch._inductor.codecache", FStr "compile_file");
    ("torch.serialization", FStr "load");
    ("venv", FStr "*");
    ("webbrowser", FStr "*")
  ].

(** [d.get(key)]: a key that is not a [str] equals no key of the table. *)
Definition table_get (d : gmap string pyfilter) (key : pyval) : option pyfilter :=
  match key with
  | PStr s => d !! s
  | _ => None
  end.

(** [isinstance(flt, set)] *)
Definition is_set (flt : pyfilter) : bool :=
  match flt with
  | FSet _ => true
  | FStr _ => false
  end.

(** [flt == "*"] *)
Definition filter_is_star (flt : pyfilter) : bool :=
  match flt with
  | FStr s => String.eqb s "*"
  | FSet _ => false
  end.

(** [n in flt] for a [str] [n]: membership in a set, substring of a string. *)
Definition filter_contains (n : string) (flt : pyfilter) : bool :=
  match flt with
  | FSet names => bool_decide (n ∈ names)
  | FStr s => str_contains n s
  end.

(** ["unknown" in v]: only a [str] supports the test with a [str] needle. *)
Definition unknown_in (v : pyval) : res bool :=
  match v with
  | PStr s => Ok (str_contains "unknown" s)
  | _ => Raise TypeError
  end.

(** The body of the loop of [_build_scan_result_from_raw_globals] for one
    pair [(m, n)]: the safety level stored in the [Global], and whether
    [issues_count] is incremented.  The two [get]s come first, then the
    [if]/[elif] chain with Python's short-circuit [or]. *)
Definition classify (m n : pyval) : res (SafetyLevel * bool) :=
  let safe_filter := table_get _safe_globals m in
  let unsafe_filter := table_get _unsafe_globals m in
  let* um := unknown_in m in
  let* u := (if um then Ok true else unknown_in n) in
  if u then Ok (Dangerous, true)
  else
    match n with
    | PStr ns =>
        if match unsafe_filter with
           | Some flt => filter_is_star flt || filter_contains ns flt
           | None => false
           end
        then Ok (Dangerous, true)
        else if match safe_filter with
                | Some flt => filter_is_star flt || filter_contains ns flt
                | None => false
                end
        then Ok (Innocuous, false)
        else Ok (Suspicious, false)
    | _ => Raise TypeError
    end.

(** [_build_scan_result_from_raw_globals]: the loop over the raw globals
    in iteration order, then the result.  A raw global is a Python tuple;
    [rg[0]] and [rg[1]] need two components. *)
Fixpoint classify_all (raw : list (list pyval)) (globals : list Global)
    (issues_count : Z) : res (list Global * Z) :=
  match raw with
  | [] => Ok (globals, issues_count)
  | rg :: rest =>
      match rg with
      | m :: n :: _ =>
          let* '(s, issue) := classify m n in
          classify_all rest (globals ++ [mkGlobal m n s])
            (if issue then issues_count + 1 else issues_count)
      | _ => Raise IndexError
      end
  end.

Definition _build_scan_result_from_raw_globals (raw_globals : gset (list pyval))
    (scan_err : bool) : res ScanResult :=
  let* '(globals, issues_count) := classify_all (elements raw_globals) [] 0 in
  Ok (mkScanResult globals 1 issues_count
        (if 0 <? issues_count then 1 else 0) scan_err).

(** ** Pickle operations and the memo table (scanner.py, lines 242-283)

    An operation is the pair [(op[0].name, op[1])]; the position [op[2]]
    is never read by the scanner. *)
Definition op : Type := string * pyval.

Definition name_in (s : string) (names : list string) : bool :=
  bool_decide (s ∈ names).

(** [int(v)] on the arguments the reader gives to [GET], [BINGET] and
    [LONG_BINGET], which are integers.  Other values do not come out of
    the reader for these opcodes; [int] is given as failing on them. *)
Definition py_int (v : pyval) : res Z :=
  match v with
  | PInt z => Ok z
  | PNone => Raise TypeError
  | _ => Raise (ValueError "invalid literal for int()")
  end.

(** [memo[k]] *)
Definition memo_get (memo : gmap pyval pyval) (k : pyval) : res pyval :=
  match memo !! k with
  | Some v => Ok v
  | None => Raise (KeyError k)
  end.

(** The inner loop of the [STACK_GLOBAL] case: [offsets] is what is left
    of [range(1, n)], [values] the list built so far. *)
Fixpoint collect_values (memo : gmap pyval pyval) (ops : list op) (n : nat)
    (offsets : list nat) (values : list pyval) : res (list pyval) :=
  match offsets with
  | [] => Ok values
  | offset :: rest =>
      match ops !! (n - offset)%nat with
      | None => Raise IndexError
      | Some (nm, arg) =>
          if name_in nm ["MEMOIZE"; "PUT"; "BINPUT"; "LONG_BINPUT"]
          then collect_values memo ops n rest values
          else
            let* v :=
              (if name_in nm ["GET"; "BINGET"; "LONG_BINGET"]
               then let* k := py_int arg in memo_get memo (PInt k)
               else if negb (name_in nm ["SHORT_BINUNICODE"; "UNICODE";
                                         "BINUNICODE"; "BINUNICODE8"])
               then Ok (PStr "unknown")
               else Ok arg) in
            let values := values ++ [v] in
            if (length values =? 2)%nat then Ok values
            else collect_values memo ops n rest values
      end
  end.

Definition stack_global_error (found n : nat) : exn :=
  ValueError ("Found " +:+ pretty found +:+
              " values for STACK_GLOBAL at position " +:+ pretty n +:+
              " instead of 2.").

(** The [STACK_GLOBAL] case: the pair added to [globals]. *)
Definition stack_global (memo : gmap pyval pyval) (ops : list op) (n : nat)
    : res (list pyval) :=
  let* values := collect_values memo ops n (seq 1 (n - 1)) [] in
  match values with
  | [v0; v1] => Ok [v1; v0]
  | _ => Raise (stack_global_error (length values) n)
  end.

(** One turn of [for n in range(len(ops))]. *)
Definition extract_op (ops : list op)
    (st : gmap pyval pyval * gset (list pyval)) (n : nat)
    : res (gmap pyval pyval * gset (list pyval)) :=
  let '(memo, globals) := st in
  match ops !! n with
  | None => Raise IndexError
  | Some (op_name, op_value) =>
      let prev := match ops !! (n - 1)%nat with
                  | Some (_, v) => v
                  | None => PNone
                  end in
      if String.eqb op_name "MEMOIZE" && (0 <? n)%nat
      then Ok (<[PInt (Z.of_nat (size memo)) := prev]> memo, globals)
      else if name_in op_name ["PUT"; "BINPUT"; "LONG_BINPUT"] && (0 <? n)%nat
      then Ok (<[op_value := prev]> memo, globals)
      else if name_in op_name ["GLOBAL"; "INST"]
      then match op_value with
           | PStr s => Ok (memo, globals ∪ {[ PStr <$> split_space_once s ]})
           | _ => Raise AttributeError
           end
      else if String.eqb op_name "STACK_GLOBAL"
      then let* pair := stack_global memo ops n in
           Ok (memo, globals ∪ {[ pair ]})
      else Ok st
  end.

Fixpoint extract_ops (ops : list op) (indices : list nat)
    (st : gmap pyval pyval * gset (list pyval))
    : res (gmap pyval pyval * gset (list pyval)) :=
  match indices with
  | [] => Ok st
  | n :: rest => let* st := extract_op ops st n in extract_ops ops rest st
  end.

(** The extraction loop over one list of operations. *)
Definition extract_globals (ops : list op)
    (st : gmap pyval pyval * gset (list pyval)) :=
  extract_ops ops (seq 0 (length ops)) st.

(** ** Byte streams

    [data : IO[bytes]] is a buffer with a read position.  The scanner
    is given in-memory streams ([io.BytesIO], by [scan_url]) and files
    opened from disk ([open(path, "rb")], by [scan_file_path]); the two
    differ on a relative seek that would end before the start. *)
Record stream : Type := mkStream {
  buf : list byte;
  pos : nat;
  in_memory : bool
}.

#[global] Instance byte_eq_dec' : EqDecision byte := byte_eq_dec.

(** [io.BytesIO(bytes)] *)
Definition stream_of (bytes : list byte) : stream := mkStream bytes 0 true.

(** [open(path, "rb")] on a file that holds [bytes]. *)
Definition file_of (bytes : list byte) : stream := mkStream bytes 0 false.

(** What is left to read. *)
Definition remaining (data : stream) : list byte := drop (pos data) (buf data).

(** [data.read(1)]: [None] stands for [b""]. *)
Definition read1 (data : stream) : option byte * stream :=
  match buf data !! pos data with
  | Some b => (Some b, mkStream (buf data) (S (pos data)) (in_memory data))
  | None => (None, data)
  end.

(** [data.seek(-1, 1)]: at position 0 an in-memory stream stays where
    it is, a file raises [OSError] (invalid argument). *)
Definition seek_back1 (data : stream) : res stream :=
  if (pos data =? 0)%nat && negb (in_memory data) then Raise OSError
  else Ok (mkStream (buf data) (pos data - 1) (in_memory data)).

(** [data.seek(0)] *)
Definition seek_start (data : stream) : stream :=
  mkStream (buf data) 0 (in_memory data).

(** [_is_7z_file] (scanner.py, lines 183-196): up to six bytes are read
    one at a time, the position is restored, the bytes read are compared
    with the signature. *)
Definition _is_7z_file (f : stream) : bool :=
  bool_decide (take 6 (remaining f) = [x37; x7a; xbc; xaf; x27; x1c]).

(** A computation that may not finish within its fuel ([None]); when it
    does, it leaves a result or an exception, and the stream. *)
Definition outcome (A : Type) : Type := option (res A * stream).

(** ** The scanner over an opcode reader *)
Section Scanner.

(** [pickletools.genops(data)], drained into a list as in lines
    232-237: the operations yielded, the text of the exception if the
    reader raised one, and the stream as the reader left it. *)
Variable genops : stream -> list op * option string * stream.

(** The [while] loop of [_list_globals] (scanner.py, lines 230-294).
    [memo] and [globals] are created once, before the loop. *)
Fixpoint list_globals_loop (fuel : nat) (data : stream)
    (multiple_pickles : bool) (memo : gmap pyval pyval)
    (globals : gset (list pyval)) : outcome (gset (list pyval)) :=
  match fuel with
  | O => None
  | S fuel =>
      let '(ops, parsing_pkl_error, data) := genops data in
      let '(last_byte, data) := read1 data in
      match seek_back1 data with
      | Raise e => Some (Raise e, data)
      | Ok data =>
          match extract_globals ops (memo, globals) with
          | Raise e => Some (Raise e, data)
          | Ok (memo, globals) =>
              if negb multiple_pickles then Some (Ok globals, data)
              else
                match parsing_pkl_error with
                | Some msg =>
                    let globals_opt :=
                      if (0 <? size globals)%nat then Some globals else None in
                    Some (Raise (GenOpsError msg globals_opt), data)
                | None =>
                    match last_byte with
                    | None => Some (Ok globals, data)
                    | Some _ =>
                        list_globals_loop fuel data multiple_pickles memo globals
                    end
                end
          end
      end
  end.

(** [_list_globals].  Every turn of the loop that is followed by
    another one has read at least one byte, so one more turn than there
    are bytes left is enough fuel. *)
Definition _list_globals (data : stream) (multiple_pickles : bool)
    : outcome (gset (list pyval)) :=
  list_globals_loop (S (length (remaining data))) data multiple_pickles ∅ ∅.

(** [scan_pickle_bytes] (scanner.py, lines 333-349): only
    [GenOpsError] is caught. *)
Definition scan_pickle_bytes (data : stream) (multiple_pickles : bool)
    : outcome ScanResult :=
  match _list_globals data multiple_pickles with
  | None => None
  | Some (Raise (GenOpsError msg e_globals), data) =>
      match e_globals with
      | Some raw => Some (_build_scan_result_from_raw_globals raw true, data)
      | None => Some (Ok (mkScanResult [] 0 0 0 true), data)
      end
  | Some (Raise e, data) => Some (Raise e, data)
  | Some (Ok raw_globals, data) =>
      Some (_build_scan_result_from_raw_globals raw_globals false, data)
  end.

(** The [for _ in range(5)] loop of [scan_pytorch], [count] turns of it. *)
Fixpoint scan_frames (count : nat) (data : stream) (scan_result : ScanResult)
    : outcome ScanResult :=
  match count with
  | O => Some (Ok scan_result, data)
  | S count =>
      match scan_pickle_bytes data false with
      | None => None
      | Some (Raise e, data) => Some (Raise e, data)
      | Some (Ok sr, data) => scan_frames count data (merge scan_result sr)
      end
  end.

(** What [scanner.py] imports from [picklescan.torch], from [zipfile]
    and from the archive and array libraries. *)
Variable _is_zipfile : stream -> bool.
Variable _should_read_directly : stream -> bool.
Variable get_magic_number : stream -> option Z * stream.
Variable MAGIC_NUMBER : Z.
Variable zipfile_is_zipfile : stream -> bool.
Variable scan_zip_bytes : stream -> outcome ScanResult.
Variable scan_7z_bytes : stream -> outcome ScanResult.
Variable scan_numpy : stream -> outcome ScanResult.

(** [scan_pytorch] (scanner.py, lines 441-466). *)
Definition scan_pytorch (data : stream) : outcome ScanResult :=
  if _is_zipfile data then scan_zip_bytes data
  else if _is_7z_file data then scan_7z_bytes data
  else
    let scan_result := mkScanResult [] 0 0 0 false in
    let should_read_directly := _should_read_directly data in
    let data :=
      if should_read_directly && (pos data =? 0)%nat
      then seek_start data else data in
    let '(magic, data) := get_magic_number data in
    if bool_decide (magic = Some MAGIC_NUMBER)
    then
      match scan_frames 5 data scan_result with
      | Some (Ok scan_result, data) =>
          Some (Ok (set_scanned_files scan_result 1), data)
      | other => other
      end
    else Some (Raise (InvalidMagicError magic), data).

Definition _pytorch_file_extensions : list string :=
  [".bin"; ".pt"; ".pth"; ".ckpt"].
Definition _numpy_file_extensions : list string := [".npy"].

(** [scan_bytes] (scanner.py, lines 469-486). *)
Definition scan_bytes (data : stream) (file_ext : option string)
    : outcome ScanResult :=
  match file_ext with
  | Some ext =>
      if bool_decide (ext ∈ _pytorch_file_extensions) then
        match scan_pytorch data with
        | Some (Raise (InvalidMagicError _), data) =>
            Some (Ok (mkScanResult [] 0 0 0 true), data)
        | other => other
        end
      else if bool_decide (ext ∈ _numpy_file_extensions) then scan_numpy data
      else
        let is_zip := zipfile_is_zipfile data in
        let data := seek_start data in
        if is_zip then scan_zip_bytes data
        else if _is_7z_file data then scan_7z_bytes data
        else scan_pickle_bytes data true
  | None =>
      let is_zip := zipfile_is_zipfile data in
      let data := seek_start data in
      if is_zip then scan_zip_bytes data
      else if _is_7z_file data then scan_7z_bytes data
      else scan_pickle_bytes data true
  end.

End Scanner.

(** ** A reference opcode reader

    [pickletools.genops] belongs to the Python library, not to the
    scanner, and the scanner above takes the reader as a parameter.
    For closed examples this module gives the reader on the opcodes
    listed in [opcode_table], with the argument decoders of
    [pickletools]: little-endian integers, length-prefixed UTF-8 text,
    newline-terminated text.  It is exact on pickles made of these
    opcodes whose text is ASCII without backslash; an opcode outside the
    table, or text outside ASCII, is reported as a reader failure. *)
Module PickleTools.

Inductive arg_kind : Type :=
  | NoArg
  | UInt (width : nat)            (* uint1, uint2, uint4, uint8 *)
  | Int4
  | Long1
  | UnicodeString (width : nat)   (* unicodestring1, 4, 8 *)
  | StringnlNoescapePair.

Definition opcode_table (code : byte) : option (string * arg_kind) :=
  match code with
  | x80 => Some ("PROTO", UInt 1)
  | x95 => Some ("FRAME", UInt 8)
  | x2e => Some ("STOP", NoArg)
  | x63 => Some ("GLOBAL", StringnlNoescapePair)
  | x69 => Some ("INST", StringnlNoescapePair)
  | x93 => Some ("STACK_GLOBAL", NoArg)
  | x94 => Some ("MEMOIZE", NoArg)
  | x71 => Some ("BINPUT", UInt 1)
  | x72 => Some ("LONG_BINPUT", UInt 4)
  | x68 => Some ("BINGET", UInt 1)
  | x6a => Some ("LONG_BINGET", UInt 4)
  | x8c => Some ("SHORT_BINUNICODE", UnicodeString 1)
  | x58 => Some ("BINUNICODE", UnicodeString 4)
  | x8d => Some ("BINUNICODE8", UnicodeString 8)
  | x4e => Some ("NONE", NoArg)
  | x4b => Some ("BININT1", UInt 1)
  | x4d => Some ("BININT2", UInt 2)
  | x4a => Some ("BININT", Int4)
  | x8a => Some ("LONG1", Long1)
  | x28 => Some ("MARK", NoArg)
  | x29 => Some ("EMPTY_TUPLE", NoArg)
  | x74 => Some ("TUPLE", NoArg)
  | x85 => Some ("TUPLE1", NoArg)
  | x86 => Some ("TUPLE2", NoArg)
  | x87 => Some ("TUPLE3", NoArg)
  | x52 => Some ("REDUCE", NoArg)
  | x5d => Some ("EMPTY_LIST", NoArg)
  | x7d => Some ("EMPTY_DICT", NoArg)
  | x88 => Some ("NEWTRUE", NoArg)
  | x89 => Some ("NEWFALSE", NoArg)
  | x30 => Some ("POP", NoArg)
  | x32 => Some ("DUP", NoArg)
  | x62 => Some ("BUILD", NoArg)
  | x81 => Some ("NEWOBJ", NoArg)
  | x61 => Some ("APPEND", NoArg)
  | x65 => Some ("APPENDS", NoArg)
  | x73 => Some ("SETITEM", NoArg)
  | x75 => Some ("SETITEMS", NoArg)
  | _ => None
  end.

(** The value read, or the text of the exception; and the input left. *)
Definition arg_result : Type := (pyval + string) * list byte.

Definition byte_val (b : byte) : Z := Z.of_N (Byte.to_N b).

(** Little-endian, unsigned. *)
Fixpoint le_uint (data : list byte) : Z :=
  match data with
  | [] => 0
  | b :: rest => byte_val b + 256 * le_uint rest
  end.

(** Little-endian, two's complement ([int.from_bytes(.., signed=True)]). *)
Definition le_int (data : list byte) : Z :=
  let u := le_uint data in
  let bits := 8 * Z.of_nat (length data) in
  if bits =? 0 then 0
  else if u <? 2 ^ (bits - 1) then u else u - 2 ^ bits.

(** [f.read(n)]: all of the [n] bytes, or the end of the stream. *)
Definition read_exact (n : Z) (input : list byte) : option (list byte) * list byte :=
  if n <=? Z.of_nat (length input)
  then (Some (take (Z.to_nat n) input), drop (Z.to_nat n) input)
  else (None, []).

Definition is_plain_ascii (b : byte) : bool :=
  (byte_val b <? 128) && negb (Byte.eqb b x5c).

Definition read_uint (width : nat) (input : list byte) : arg_result :=
  match read_exact (Z.of_nat width) input with
  | (Some data, rest) => (inl (PInt (le_uint data)), rest)
  | (None, rest) => (inr "not enough data in stream to read uint", rest)
  end.

Definition read_int4 (input : list byte) : arg_result :=
  match read_exact 4 input with
  | (Some data, rest) => (inl (PInt (le_int data)), rest)
  | (None, rest) => (inr "not enough data in stream to read int4", rest)
  end.

Definition read_long1 (input : list byte) : arg_result :=
  match read_uint 1 input with
  | (inl (PInt n), rest) =>
      match read_exact n rest with
      | (Some data, rest) => (inl (PInt (le_int data)), rest)
      | (None, rest) => (inr "not enough data in stream to read long1", rest)
      end
  | other => other
  end.

Definition sys_maxsize : Z := 2 ^ 63 - 1.

Definition read_unicodestring (width : nat) (input : list byte) : arg_result :=
  match read_uint width input with
  | (inl (PInt n), rest) =>
      if sys_maxsize <? n
      then (inr "unicodestring byte count exceeds sys.maxsize", rest)
      else
        match read_exact n rest with
        | (Some data, rest) =>
            if forallb (fun b => byte_val b <? 128) data
            then (inl (PStr (string_of_list_byte data)), rest)
            else (inr "text outside ASCII", rest)
        | (None, rest) => (inr "not enough bytes in a unicodestring", rest)
        end
  | other => other
  end.

(** [f.readline()]: up to and including the first newline. *)
Fixpoint readline (input : list byte) : list byte * list byte :=
  match input with
  | [] => ([], [])
  | b :: rest =>
      if Byte.eqb b x0a then ([b], rest)
      else let '(line, rest) := readline rest in (b :: line, rest)
  end.

(** [read_stringnl(f, stripquotes=False)] *)
Definition read_stringnl_noescape (input : list byte) : (string + string) * list byte :=
  let '(data, rest) := readline input in
  match last data with
  | Some x0a =>
      let data := take (length data - 1) data in
      if forallb is_plain_ascii data
      then (inl (string_of_list_byte data), rest)
      else (inr "text outside ASCII", rest)
  | _ => (inr "no newline found when trying to read stringnl", rest)
  end.

Definition read_stringnl_noescape_pair (input : list byte) : arg_result :=
  match read_stringnl_noescape input with
  | (inl first, rest) =>
      match read_stringnl_noescape rest with
      | (inl second, rest) => (inl (PStr (first +:+ " " +:+ second)), rest)
      | (inr msg, rest) => (inr msg, rest)
      end
  | (inr msg, rest) => (inr msg, rest)
  end.

Definition read_arg (kind : arg_kind) (input : list byte) : arg_result :=
  match kind with
  | NoArg => (inl PNone, input)
  | UInt width => read_uint width input
  | Int4 => read_int4 input
  | Long1 => read_long1 input
  | UnicodeString width => read_unicodestring width input
  | StringnlNoescapePair => read_stringnl_noescape_pair input
  end.

(** The generator of [pickletools._genops], drained into [ops]. *)
Fixpoint genops_loop (fuel : nat) (input : list byte) (ops : list op)
    : list op * option string * list byte :=
  match fuel with
  | O => (ops, Some "out of fuel", input)
  | S fuel =>
      match input with
      | [] => (ops, Some "pickle exhausted before seeing STOP", [])
      | code :: input =>
          match opcode_table code with
          | None => (ops, Some "opcode unknown", input)
          | Some (nm, kind) =>
              match read_arg kind input with
              | (inr msg, input) => (ops, Some msg, input)
              | (inl arg, input) =>
                  let ops := ops ++ [(nm, arg)] in
                  if Byte.eqb code x2e then (ops, None, input)
                  else genops_loop fuel input ops
              end
          end
      end
  end.

Definition genops (data : stream) : list op * option string * stream :=
  let input := remaining data in
  let '(ops, err, rest) := genops_loop (S (length input)) input [] in
  (ops, err,
 mkStream (buf data) (length (buf data) - length rest) (in_memory data)).

End PickleTools.

(** ** The claims' wording, for comparison with the code *)
Module Spec.

(** Section 3: a table value is the sentinel [*] or a finite set of names. *)
Inductive names : Type :=
  | Wildcard
  | Names (l : list string).

#[global] Instance names_eq_dec : EqDecision names.
Proof. solve_decision. Defined.

(** Section 6, table [SAFE]. *)
Definition SAFE : gmap string names :=
  list_to_map [
    ("collections", Names ["OrderedDict"]);
    ("torch", Names [
       "LongStorage"; "FloatStorage"; "HalfStorage"; "QUInt2x4Storage";
       "QUInt4x2Storage"; "QInt32Storage"; "QInt8Storage"; "QUInt8Storage";
       "ComplexFloatStorage"; "ComplexDoubleStorage"; "DoubleStorage";
       "BFloat16Storage"; "BoolStorage"; "CharStorage"; "ShortStorage";
       "IntStorage"; "ByteStorage"]);
    ("numpy", Names ["dtype"; "ndarray"]);
    ("numpy._core.multiarray", Names ["_reconstruct"]);
    ("numpy.core.multiarray", Names ["_reconstruct"]);
    ("torch._utils", Names ["_rebuild_tensor_v2"])
  ].

Definition builtin_names : list string :=
  ["eval"; "compile"; "getattr"; "apply"; "exec"; "open"; "breakpoint"].

(** Section 6, table [UNSAFE]. *)
Definition UNSAFE : gmap string names :=
  list_to_map (
    [("__builtin__", Names builtin_names); ("builtins", Names builtin_names)]
    ++ ((fun m => (m, Wildcard)) <$>
        ["os"; "nt"; "posix"; "sys"; "subprocess"; "shutil"; "socket"; "ssl";
         "pdb"; "bdb"; "pickle"; "_pickle"; "pip"; "runpy"; "timeit"; "venv";
         "webbrowser"; "asyncio"; "commands"; "httplib"; "aiohttp.client";
         "requests.api"; "numpy.testing._private.utils"])
    ++ [("functools", Names ["partial"]);
        ("operator", Names ["attrgetter"]);
        ("pydoc", Names ["pipepager"]);
        ("torch._inductor.codecache", Names ["compile_file"]);
        ("torch.serialization", Names ["load"])]).

(** "[T[m]] exists and ([T[m] == *] or [n ∈ T[m]])" *)
Definition listed (T : gmap string names) (m n : string) : bool :=
  match T !! m with
  | Some Wildcard => true
  | Some (Names l) => bool_decide (n ∈ l)
  | None => false
  end.

(** Section 4.3, the four rules in order: the level, and whether the
    pair counts as an issue. *)
Definition classify (m n : string) : SafetyLevel * bool :=
  if str_contains "unknown" m || str_contains "unknown" n then (Dangerous, true)
  else if listed UNSAFE m n then (Dangerous, true)
  else if listed SAFE m n then (Innocuous, false)
  else (Suspicious, false).

(** Section 4.2, step 5: the operands of the [STACK_GLOBAL] at index
    [n], scanning backwards from [n], that is over the indices [n-1]
    down to [0]. *)
Definition stack_global (memo : gmap pyval pyval) (ops : list op) (n : nat)
    : res (list pyval) :=
  let* values := collect_values memo ops n (seq 1 n) [] in
  match values with
  | [first_collected; second_collected] => Ok [second_collected; first_collected]
  | _ => Raise (stack_global_error (length values) n)
  end.

End Spec.

(** ** [ScanResult] objects on a heap

    [merge] is a method: it updates the receiver in place, and the
    [globals] field holds a reference to a list object that [extend]
    updates in place.  Objects and lists live at locations; two results
    may be one object, or two objects with one list. *)
Module Heap.

Definition loc : Type := positive.

Record object : Type := mkObject {
  o_globals : loc;
  o_scanned_files : Z;
  o_issues_count : Z;
  o_infected_files : Z;
  o_scan_err : bool
}.

Record heap : Type := mkHeap {
  lists : gmap loc (list Global);
  objects : gmap loc object
}.

(** [self.globals.extend(sr.globals)] *)
Definition extend_globals (self sr : loc) (h : heap) : option heap :=
  o_self ← objects h !! self;
  o_sr ← objects h !! sr;
  l_self ← lists h !! o_globals o_self;
  l_sr ← lists h !! o_globals o_sr;
  Some (mkHeap (<[o_globals o_self := l_self ++ l_sr]> (lists h)) (objects h)).

(** [self.f = g(self.f, sr.f)] for one field: both objects are read in
    the heap as it is when the statement runs. *)
Definition update_field (set : object -> object -> object)
    (self sr : loc) (h : heap) : option heap :=
  o_self ← objects h !! self;
  o_sr ← objects h !! sr;
  Some (mkHeap (lists h) (<[self := set o_self o_sr]> (objects h))).

Definition add_scanned_files (a b : object) : object :=
  mkObject (o_globals a) (o_scanned_files a + o_scanned_files b)
    (o_issues_count a) (o_infected_files a) (o_scan_err a).
Definition add_issues_count (a b : object) : object :=
  mkObject (o_globals a) (o_scanned_files a)
    (o_issues_count a + o_issues_count b) (o_infected_files a) (o_scan_err a).
Definition add_infected_files (a b : object) : object :=
  mkObject (o_globals a) (o_scanned_files a)
    (o_issues_count a) (o_infected_files a + o_infected_files b) (o_scan_err a).
Definition or_scan_err (a b : object) : object :=
  mkObject (o_globals a) (o_scanned_files a)
    (o_issues_count a) (o_infected_files a) (o_scan_err a || o_scan_err b).

(** [ScanResult.merge] (scanner.py, lines 46-51), statement by
    statement.  [None]: [self] or [sr] is not a live [ScanResult]. *)
Definition merge (self sr : loc) (h : heap) : option heap :=
  h ← extend_globals self sr h;
  h ← update_field add_scanned_files self sr h;
  h ← update_field add_issues_count self sr h;
  h ← update_field add_infected_files self sr h;
  update_field or_scan_err self sr h.

(** The value an object denotes. *)
Definition value_of (h : heap) (l : loc) : option ScanResult :=
  o ← objects h !! l;
  gs ← lists h !! o_globals o;
  Some (mkScanResult gs (o_scanned_files o) (o_issues_count o)
          (o_infected_files o) (o_scan_err o)).

End Heap.

(** ** Invariants of scan results *)

(** Number of entries whose safety is [Dangerous]. *)
Definition dangerous_count (gs : list Global) : Z :=
  Z.of_nat (length (filter (fun g => safety g = Dangerous) gs)).

Definition issues_consistent (S : ScanResult) : Prop :=
  dangerous_count (globals S) = issues_count S.

Definition infected_le_scanned (S : ScanResult) : Prop :=
  infected_files S <= scanned_files S.

(** A scanner that only returns results satisfying [P]. *)
Definition returns_only (P : ScanResult -> Prop)
    (scan : stream -> outcome ScanResult) : Prop :=
  forall data S d, scan data = Some (Ok S, d) -> P S.

(** The exceptions that the extraction loop and the classifier raise
    themselves. *)
Definition plain_exn (e : exn) : Prop :=
  match e with
  | GenOpsError _ _ | InvalidMagicError _ => False
  | _ => True
  end.

(** The results that the scanner can hand to a caller, whatever the
    files: the three literal results of the source ([ScanResult([])],
    [ScanResult([], scan_err=True)], [ScanResult([], 1)]), a result of
    [scan_pickle_bytes], the [merge] of two results, and a result whose
    [scanned_files] was set to 1 by [scan_pytorch]. *)
Inductive produced (genops : stream -> list op * option string * stream)
    : ScanResult -> Prop :=
  | produced_empty : produced genops (mkScanResult [] 0 0 0 false)
  | produced_error : produced genops (mkScanResult [] 0 0 0 true)
  | produced_no_pickle : produced genops (mkScanResult [] 1 0 0 false)
  | produced_pickle data mp S d :
      scan_pickle_bytes genops data mp = Some (Ok S, d) -> produced genops S
  | produced_merge a b :
      produced genops a -> produced genops b -> produced genops (merge a b)
  | produced_pytorch S :
      produced genops S -> produced genops (set_scanned_files S 1).

(** A reader that returns without failure has read at least one byte of
    the same buffer (the [STOP] it ended on). *)
Definition reader_progress
    (genops : stream -> list op * option string * stream) : Prop :=
  forall data ops d1,
    genops data = (ops, None, d1) ->
    buf d1 = buf data /\ (pos data < pos d1)%nat.

(** [ScanResult([])] *)
Definition empty_result : ScanResult := mkScanResult [] 0 0 0 false.

(** How a filter of the code reads as a table value of the spec: the
    string ["*"] is the wildcard, another string is a single name. *)
Definition as_names (flt : pyfilter) : Spec.names :=
  match flt with
  | FSet l => Spec.Names l
  | FStr s => if String.eqb s "*" then Spec.Wildcard else Spec.Names [s]
  end.

(** The raw globals that [_list_globals] returns for a byte string read
    with the reference reader in multi-pickle mode, as a list. *)
Definition extracted (bytes : list byte) : option (res (list (list pyval))) :=
  match _list_globals PickleTools.genops (stream_of bytes) true with
  | Some (Ok raw_globals, _) => Some (Ok (elements raw_globals))
  | Some (Raise e, _) => Some (Raise e)
  | None => None
  end.

(** ** Concrete pickles *)

(** [GLOBAL "os system"], [STOP]. *)
Definition pickle_os_system : list byte :=
  [x63] ++ list_byte_of_string "os" ++ [x0a]
        ++ list_byte_of_string "system" ++ [x0a; x2e].

(** [SHORT_BINUNICODE "os"], [SHORT_BINUNICODE "system"], [STACK_GLOBAL],
    [STOP]: a pickle without a [PROTO] header; it unpickles to
    [os.system]. *)
Definition pickle_stack_global_first : list byte :=
  [x8c; x02] ++ list_byte_of_string "os"
  ++ [x8c; x06] ++ list_byte_of_string "system" ++ [x93; x2e].

Definition ops_stack_global_first : list op :=
  [("SHORT_BINUNICODE", PStr "os"); ("SHORT_BINUNICODE", PStr "system");
   ("STACK_GLOBAL", PNone); ("STOP", PNone)].


(** [PROTO 4], [SHORT_BINUNICODE "x"], [MEMOIZE], [STOP]: the pickle of
    the string ["x"]. *)
Definition pickle_A : list byte :=
  [x80; x04; x8c; x01] ++ list_byte_of_string "x" ++ [x94; x2e].

(** [PROTO 4], [SHORT_BINUNICODE "builtins"], [MEMOIZE],
    [SHORT_BINUNICODE "eval"], [MEMOIZE], [BINGET 0], [BINGET 1],
    [STACK_GLOBAL], [STOP]: it unpickles to [builtins.eval]. *)
Definition pickle_B : list byte :=
  [x80; x04; x8c; x08] ++ list_byte_of_string "builtins" ++ [x94]
  ++ [x8c; x04] ++ list_byte_of_string "eval" ++ [x94]
  ++ [x68; x00; x68; x01; x93; x2e].

(** [PROTO 2], [LONG1 0x1950a86a20f9469cfc6c], [STOP]: the header pickle
    of a legacy tensor archive. *)
Definition pickle_magic : list byte :=
  [x80; x02; x8a; x0a; x6c; xfc; x9c; x46; xf9; x20; x6a; xa8; x50; x19; x2e].

(** A legacy tensor archive with two frames that import [os.system]. *)
Definition legacy_two_infected : list byte :=
  pickle_magic ++ pickle_os_system ++ pickle_os_system.

(** Modelled from the spec: [get_magic_number], [MAGIC_NUMBER],
    [_is_zipfile] and [_should_read_directly] of [picklescan/torch.py],
    and the archive walkers' libraries, none of which is among the
    sources.  Section 4.4.1: a stream that begins with a zip signature
    goes to the zip walker; a legacy archive starts with a fixed framing
    magic that is validated before the frames are read from the stream.
    The magic is read here as the number carried by the header pickle.
    These instances serve closed examples only: the theorems about
    [scan_pytorch] and [scan_bytes] hold for every choice. *)
Module Torch.

Definition MAGIC_NUMBER : Z := 0x1950a86a20f9469cfc6c.

Definition _is_zipfile (f : stream) : bool :=
  bool_decide (take 4 (remaining f) = [x50; x4b; x03; x04]).

Definition zipfile_is_zipfile (f : stream) : bool :=
  bool_decide (take 4 (remaining f) = [x50; x4b; x03; x04])
  || bool_decide (take 4 (remaining f) = [x50; x4b; x05; x06]).

Definition _should_read_directly (f : stream) : bool := false.

Definition get_magic_number (data : stream) : option Z * stream :=
  let '(ops, _, data) := PickleTools.genops data in
  match find (fun o : op => str_contains "INT" (fst o)
                            || str_contains "LONG" (fst o)) ops with
  | Some (_, PInt z) => (Some z, data)
  | _ => (None, data)
  end.

(** A walker over an archive without members: [ScanResult([])]. *)
Definition scan_no_members (data : stream) : outcome ScanResult :=
  Some (Ok empty_result, data).

End Torch.

(** ** Concrete heaps *)

Definition g_os_system : Global := mkGlobal (PStr "os") (PStr "system") Dangerous.

(** [a = ScanResult([g], 1, 1, 1)]: one object, one list. *)
Definition heap_one : Heap.heap :=
  Heap.mkHeap {[ 1%positive := [g_os_system] ]}
              {[ 1%positive := Heap.mkObject 1%positive 1 1 1 false ]}.

(** [l = [g]; a = ScanResult(l); b = ScanResult(l, 1, 1, 1)]: two
    objects, at 1 and 2, whose [globals] is the one list [l]. *)
Definition heap_shared : Heap.heap :=
  Heap.mkHeap {[ 1%positive := [g_os_system] ]}
              (<[ 1%positive := Heap.mkObject 1%positive 0 0 0 false ]>
                 {[ 2%positive := Heap.mkObject 1%positive 1 1 1 false ]}).

(** [a = ScanResult([]); b = ScanResult([g], 1, 1, 1)]: two objects, at 1
    and 2, each with a list of its own, at 1 and 2. *)
Definition heap_apart : Heap.heap :=
  Heap.mkHeap (<[ 1%positive := [] ]> {[ 2%positive := [g_os_system] ]})
              (<[ 1%positive := Heap.mkObject 1%positive 0 0 0 false ]>
                 {[ 2%positive := Heap.mkObject 2%positive 1 1 1 false ]}).


(** [PROTO 4], [BININT1 5], [MEMOIZE], [SHORT_BINUNICODE "x"], [MEMOIZE],
    [BINGET 0], [BINGET 1], [STACK_GLOBAL], and no [STOP]: the module
    operand is the integer 5 of the memo table, and the reader fails at
    the end. *)
Definition pickle_integer_module : list byte :=
  [x80; x04; x4b; x05; x94; x8c; x01] ++ list_byte_of_string "x"
  ++ [x94; x68; x00; x68; x01; x93].

(** Decidable equality of exceptions and results, for closed checks. *)
#[global] Instance exn_eq_dec : EqDecision exn.
Proof. solve_decision. Defined.

#[global] Instance res_eq_dec {A : Type} `{EqDecision A} : EqDecision (res A).
Proof. solve_decision. Defined.

#[global] Instance pyfilter_eq_dec : EqDecision pyfilter.
Proof. solve_decision. Defined.

#[global] Instance stream_eq_dec : EqDecision stream.
Proof. solve_decision. Defined.

(** ** File names and signatures (scanner.py, lines 166-180) *)

Definition _pickle_file_extensions : list string :=
  [".pkl"; ".pickle"; ".joblib"; ".dat"; ".data"].
Definition _zip_file_extensions : list string := [".zip"; ".npz"; ".7z"].

Definition _pickle_magic_bytes : list (list byte) :=
  [[x80; x00]; [x80; x01]; [x80; x02]; [x80; x03]; [x80; x04]; [x80; x05]].
Definition _numpy_magic_bytes : list byte :=
  x93 :: list_byte_of_string "NUMPY".

(** [data.startswith(prefix)] on bytes *)
Definition starts_with (prefix data : list byte) : bool :=
  bool_decide (take (length prefix) data = prefix).

(** [s.rfind(c)]: the last index of [c], [-1] when there is none. *)
Fixpoint rfind_from (c : ascii) (s : string) (i last : Z) : Z :=
  match s with
  | EmptyString => last
  | String a rest => rfind_from c rest (i + 1) (if Ascii.eqb a c then i else last)
  end.
Definition rfind (c : ascii) (s : string) : Z := rfind_from c s 0 (-1).

(** The [while] of [genericpath._splitext]: [true] when a character
    other than the dot is found from [filenameIndex] up to [dotIndex],
    which is when the function returns the split. *)
Fixpoint after_leading_dots (fuel : nat) (p : string) (filenameIndex dotIndex : nat)
    : bool :=
  match fuel with
  | O => false
  | S fuel =>
      if (filenameIndex <? dotIndex)%nat
      then match String.get filenameIndex p with
           | Some c =>
               if Ascii.eqb c "."%char
               then after_leading_dots fuel p (S filenameIndex) dotIndex
               else true
           | None => true
           end
      else false
  end.

(** [os.path.splitext(p)] of [posixpath]: the separator is ["/"]. *)
Definition splitext (p : string) : string * string :=
  let sepIndex := rfind "/"%char p in
  let dotIndex := rfind "."%char p in
  if (sepIndex <? dotIndex)
     && after_leading_dots (String.length p) p
          (Z.to_nat (sepIndex + 1)) (Z.to_nat dotIndex)
  then (substring 0 (Z.to_nat dotIndex) p,
        substring (Z.to_nat dotIndex) (String.length p - Z.to_nat dotIndex) p)
  else (p, "").

(** [data.read(n)] *)
Definition read_n (n : nat) (data : stream) : list byte * stream :=
  let bytes := take n (remaining data) in
  (bytes, mkStream (buf data) (pos data + length bytes) (in_memory data)).

(** [data.seek(-k, 1)], as [seek_back1] for any [k]. *)
Definition seek_back (k : nat) (data : stream) : res stream :=
  if (pos data <? k)%nat && negb (in_memory data) then Raise OSError
  else Ok (mkStream (buf data) (pos data - k) (in_memory data)).

(** [_is_7z_file], statement by statement: the loop that reads one byte
    at a time; [fuel] bounds its turns, six are enough. *)
Fixpoint read_signature (fuel : nat) (f : stream) (read_bytes : list byte)
    : list byte * stream :=
  match fuel with
  | O => (read_bytes, f)
  | S fuel =>
      match read1 f with
      | (None, f) => (read_bytes, f)
      | (Some byte, f) =>
          let read_bytes := read_bytes ++ [byte] in
          if (length read_bytes =? 6)%nat then (read_bytes, f)
          else read_signature fuel f read_bytes
      end
  end.

(** [start = f.tell()], the loop, [f.seek(start)], the comparison: the
    answer and the stream afterwards. *)
Definition _is_7z_file_steps (f : stream) : bool * stream :=
  let start := pos f in
  let '(read_bytes, f) := read_signature 6 f [] in
  let f := mkStream (buf f) start (in_memory f) in
  (bool_decide (read_bytes = [x37; x7a; xbc; xaf; x27; x1c]), f).

(** What [zip.open(file_name)] does: it gives the member as a stream,
    or raises [zipfile.BadZipFile] or [RuntimeError], which the walker
    catches, or raises something else. *)
Inductive zip_open_result : Type :=
  | ZipOpened (file : stream)
  | ZipCaught
  | ZipRaised (e : exn).

(** More concrete inputs. *)

(** A legacy tensor archive whose only frame is not a pickle. *)
Definition legacy_garbage : list byte := pickle_magic ++ [xff; x00].

(** The operations of [pickle.dumps(os.system, protocol=4)]. *)
Definition ops_protocol4 : list op :=
  [("PROTO", PInt 4); ("SHORT_BINUNICODE", PStr "os"); ("MEMOIZE", PNone);
   ("SHORT_BINUNICODE", PStr "system"); ("MEMOIZE", PNone);
   ("STACK_GLOBAL", PNone); ("MEMOIZE", PNone); ("STOP", PNone)].

(** An open archive with two members that hold the same bytes, the
    pickle of [os.system] in protocol 0: [data.pkl] and [model.bin];
    [zip.open] raises [KeyError] for any other name. *)
Definition archive_two_members (file_name : string) : zip_open_result :=
  if String.eqb file_name "data.pkl" then ZipOpened (stream_of pickle_os_system)
  else if String.eqb file_name "model.bin"
  then ZipOpened (stream_of pickle_os_system)
  else ZipRaised (KeyError (PStr file_name)).

(** A header reader for arrays without objects. *)
Definition header_without_object (data : stream) : res bool * stream :=
  (Ok false, data).

(** ** The array scanner and the zip walker *)
Module Walkers.


Section WithLibraries.

Variable genops : stream -> list op * option string * stream.

(** [np.lib.format.MAGIC_PREFIX], and the three calls that read an
    array header ([read_magic], [_check_version], [_read_array_header])
    up to [dtype.hasobject]: the flag or an exception, and the stream. *)
Variable MAGIC_PREFIX : list byte.
Variable read_array_header : stream -> res bool * stream.

(** [scan_numpy] (scanner.py, lines 411-438). *)
Definition scan_numpy (data : stream) : outcome ScanResult :=
  let N := length MAGIC_PREFIX in
  let '(magic, data) := read_n N data in
  match seek_back (min N (length magic)) data with
  | Raise e => Some (Raise e, data)
  | Ok data =>
      if starts_with [x50; x4b; x03; x04] magic
         || starts_with [x50; x4b; x05; x06] magic
      then Some (Raise (ValueError ".npz file not handled as zip file"), data)
      else if bool_decide (magic = MAGIC_PREFIX)
      then match read_array_header data with
           | (Raise e, data) => Some (Raise e, data)
           | (Ok hasobject, data) =>
               if hasobject then scan_pickle_bytes genops data true
               else Some (Ok (mkScanResult [] 1 0 0 false), data)
           end
      else scan_pickle_bytes genops data true
  end.

(** The members of an open archive: [zip.open]. *)
Variable zip_open : string -> zip_open_result.

(** The [for file_name in file_names] loop of [scan_zip_bytes]
    (scanner.py, lines 383-406), inside the [with] that opened the
    archive.  An exception of a scan is neither [BadZipFile] nor
    [RuntimeError]: it ends the walk. *)
Fixpoint scan_zip_members (file_names : list string) (result : ScanResult)
    : option (res ScanResult) :=
  match file_names with
  | [] => Some (Ok result)
  | file_name :: rest =>
      match zip_open file_name with
      | ZipCaught => scan_zip_members rest result
      | ZipRaised e => Some (Raise e)
      | ZipOpened file =>
          let magic_bytes := fst (read_n 8 file) in
          let file_ext := snd (splitext file_name) in
          if bool_decide (file_ext ∈ _pickle_file_extensions)
             || existsb (fun mn => starts_with mn magic_bytes) _pickle_magic_bytes
          then match scan_pickle_bytes genops file true with
               | None => None
               | Some (Raise e, _) => Some (Raise e)
               | Some (Ok sr, _) => scan_zip_members rest (merge result sr)
               end
          else if bool_decide (file_ext ∈ _numpy_file_extensions)
                  || starts_with _numpy_magic_bytes magic_bytes
          then match scan_numpy file with
               | None => None
               | Some (Raise e, _) => Some (Raise e)
               | Some (Ok sr, _) => scan_zip_members rest (merge result sr)
               end
          else scan_zip_members rest result
      end
  end.

(** [scan_zip_bytes], from [result = ScanResult([])] on, for the archive
    whose [namelist()] is [file_names]. *)
Definition scan_zip_bytes (file_names : list string) : option (res ScanResult) :=
  scan_zip_members file_names (mkScanResult [] 0 0 0 false).

End WithLibraries.

End Walkers.

(** ** Entry points over files (scanner.py, lines 518-545) *)
Section EntryPoints.

Variable genops : stream -> list op * option string * stream.
Variable _is_zipfile : stream -> bool.
Variable _should_read_directly : stream -> bool.
Variable get_magic_number : stream -> option Z * stream.
Variable MAGIC_NUMBER : Z.
Variable zipfile_is_zipfile : stream -> bool.
Variable scan_zip_bytes : stream -> outcome ScanResult.
Variable scan_7z_bytes : stream -> outcome ScanResult.
Variable scan_numpy : stream -> outcome ScanResult.

Local Abbreviation scan_bytes' :=
  (scan_bytes genops _is_zipfile _should_read_directly get_magic_number
     MAGIC_NUMBER zipfile_is_zipfile scan_zip_bytes scan_7z_bytes scan_numpy).

(** [scan_file_path]: the file at [path] holds [content]. *)
Definition scan_file_path (path : string) (content : list byte)
    : outcome ScanResult :=
  let file_ext := snd (splitext path) in
  scan_bytes' (file_of content) (Some file_ext).

(** [scan_url]: [body] is what [_http_get] returned. *)
Definition scan_url (body : list byte) : outcome ScanResult :=
  scan_bytes' (stream_of body) None.

(** The test that makes [scan_directory_path] skip a file. *)
Definition skipped_extension (file_ext : string) : bool :=
  bool_decide (file_ext ∉ _zip_file_extensions)
  && bool_decide (file_ext ∉ _pickle_file_extensions)
  && bool_decide (file_ext ∉ _pytorch_file_extensions).

(** The two nested loops of [scan_directory_path] over the files that
    [os.walk] yields, in its order, each with its content. *)
Fixpoint scan_directory_files (files : list (string * list byte))
    (scan_result : ScanResult) : option (res ScanResult) :=
  match files with
  | [] => Some (Ok scan_result)
  | (file_name, content) :: rest =>
      let file_ext := snd (splitext file_name) in
      if skipped_extension file_ext then scan_directory_files rest scan_result
      else match scan_bytes' (file_of content) (Some file_ext) with
           | None => None
           | Some (Raise e, _) => Some (Raise e)
           | Some (Ok sr, _) => scan_directory_files rest (merge scan_result sr)
           end
  end.

Definition scan_directory_path (files : list (string * list byte))
    : option (res ScanResult) :=
  scan_directory_files files (mkScanResult [] 0 0 0 false).

End EntryPoints.

(** * Theorems *)

(** ** The aggregator *)

Lemma merge_assoc (a b c : ScanResult) :
  merge (merge a b) c = merge a (merge b c).
Proof.
  unfold merge; simpl.
  rewrite <- app_assoc, <- !Z.add_assoc, <- orb_assoc.
  reflexivity.
Qed.


(** ** Counting issues *)

Lemma classify_issue_iff (m n : pyval) (s : SafetyLevel) (issue : bool) :
  classify m n = Ok (s, issue) -> (issue = true <-> s = Dangerous).
Proof.
  unfold classify, bind; intros H.
  repeat case_match; simplify_eq; split; intros; done.
Qed.

Lemma dangerous_count_snoc (gs : list Global) (g : Global) :
  dangerous_count (gs ++ [g]) =
  dangerous_count gs + (if decide (safety g = Dangerous) then 1 else 0).
Proof.
  unfold dangerous_count.
  rewrite filter_app, length_app, Nat2Z.inj_add.
  f_equal.
  rewrite filter_cons, filter_nil.
  destruct (decide (safety g = Dangerous)); reflexivity.
Qed.

Lemma classify_all_count (raw : list (list pyval)) :
  forall gs ic gs' ic',
    classify_all raw gs ic = Ok (gs', ic') ->
    ic' - dangerous_count gs' = ic - dangerous_count gs.
Proof.
  induction raw as [|rg rest IH]; intros gs ic gs' ic' H; simpl in H.
  - by simplify_eq.
  - destruct rg as [|m [|n tl]]; try discriminate.
    destruct (classify m n) as [[s issue]|e] eqn:Hc; simpl in H; [|discriminate].
    apply IH in H. rewrite H, dangerous_count_snoc; simpl.
    apply classify_issue_iff in Hc.
    destruct issue, (decide (s = Dangerous)) as [->|Hs]; try lia.
    + exfalso. apply Hs, Hc. reflexivity.
    + destruct Hc as [_ Hc]. specialize (Hc eq_refl). discriminate.
Qed.

Lemma build_issues_consistent (raw : gset (list pyval)) (err : bool) (S : ScanResult) :
  _build_scan_result_from_raw_globals raw err = Ok S -> issues_consistent S.
Proof.
  unfold _build_scan_result_from_raw_globals, bind; intros H.
  destruct (classify_all (elements raw) [] 0) as [[gs ic]|e] eqn:Hall; [|discriminate].
  simplify_eq. unfold issues_consistent; simpl.
  apply classify_all_count in Hall. unfold dangerous_count in *; simpl in *. lia.
Qed.

Lemma build_counters (raw : gset (list pyval)) (err : bool) (S : ScanResult) :
  _build_scan_result_from_raw_globals raw err = Ok S ->
  scanned_files S = 1 /\ scan_err S = err /\
  infected_files S = (if 0 <? issues_count S then 1 else 0).
Proof.
  unfold _build_scan_result_from_raw_globals, bind; intros H.
  destruct (classify_all (elements raw) [] 0) as [[gs ic]|e]; [|discriminate].
  by simplify_eq.
Qed.

Lemma merge_issues_consistent (a b : ScanResult) :
  issues_consistent a -> issues_consistent b -> issues_consistent (merge a b).
Proof.
  unfold issues_consistent, dangerous_count; simpl; intros Ha Hb.
  rewrite filter_app, length_app, Nat2Z.inj_add. lia.
Qed.

(** What [scan_pickle_bytes] returns, case by case. *)
Lemma scan_pickle_bytes_cases genops (data : stream) (mp : bool)
    (S : ScanResult) (d : stream) :
  scan_pickle_bytes genops data mp = Some (Ok S, d) ->
  (exists raw err, _build_scan_result_from_raw_globals raw err = Ok S)
  \/ S = mkScanResult [] 0 0 0 true.
Proof.
  unfold scan_pickle_bytes; intros H.
  repeat case_match; simplify_eq; eauto.
Qed.

Lemma scan_pickle_bytes_issues_consistent genops data mp S d :
  scan_pickle_bytes genops data mp = Some (Ok S, d) -> issues_consistent S.
Proof.
  intros H. apply scan_pickle_bytes_cases in H as [(raw & err & H)| ->].
  - eapply build_issues_consistent, H.
  - reflexivity.
Qed.

Lemma scan_frames_issues_consistent genops (count : nat) :
  forall data acc S d,
    issues_consistent acc ->
    scan_frames genops count data acc = Some (Ok S, d) ->
    issues_consistent S.
Proof.
  induction count as [|count IH]; intros data acc S d Hacc H; simpl in H.
  - by simplify_eq.
  - destruct (scan_pickle_bytes genops data false) as [[[sr|e] d1]|] eqn:Hs;
      try discriminate.
    eapply IH; [|exact H].
    apply merge_issues_consistent; [done|].
    eapply scan_pickle_bytes_issues_consistent, Hs.
Qed.

(** ** Exceptions that escape *)

Lemma collect_values_plain memo ops n offsets :
  forall values e,
    collect_values memo ops n offsets values = Raise e -> plain_exn e.
Proof.
  induction offsets as [|offset rest IH]; intros values e H; simpl in H.
  - discriminate.
  - unfold bind, memo_get, py_int in H.
    repeat case_match; simplify_eq; simpl; eauto.
Qed.

Lemma stack_global_plain memo ops n e :
  stack_global memo ops n = Raise e -> plain_exn e.
Proof.
  unfold stack_global, bind, stack_global_error; intros H.
  destruct (collect_values memo ops n (seq 1 (n - 1)) []) eqn:Hc.
  - repeat case_match; simplify_eq; exact I.
  - simplify_eq. eapply collect_values_plain, Hc.
Qed.

Lemma extract_op_plain ops st n e :
  extract_op ops st n = Raise e -> plain_exn e.
Proof.
  unfold extract_op, bind; intros H.
  destruct st as [memo gl].
  repeat case_match; simplify_eq; try exact I.
  eapply stack_global_plain; eassumption.
Qed.

Lemma extract_ops_plain ops indices :
  forall st e, extract_ops ops indices st = Raise e -> plain_exn e.
Proof.
  induction indices as [|n rest IH]; intros st e H; simpl in H.
  - discriminate.
  - unfold bind in H.
    destruct (extract_op ops st n) eqn:Hop.
    + eapply IH, H.
    + simplify_eq. eapply extract_op_plain, Hop.
Qed.

Lemma classify_all_plain raw :
  forall gs ic e, classify_all raw gs ic = Raise e -> plain_exn e.
Proof.
  induction raw as [|rg rest IH]; intros gs ic e H; simpl in H.
  - discriminate.
  - destruct rg as [|m [|n tl]]; simplify_eq; try exact I.
    destruct (classify m n) as [[s issue]|e'] eqn:Hc; simpl in H.
    + eapply IH, H.
    + simplify_eq. unfold classify, bind, unknown_in in Hc.
      repeat case_match; simplify_eq; exact I.
Qed.

Lemma build_plain raw err e :
  _build_scan_result_from_raw_globals raw err = Raise e -> plain_exn e.
Proof.
  unfold _build_scan_result_from_raw_globals, bind; intros H.
  destruct (classify_all (elements raw) [] 0) as [[gs ic]|e'] eqn:Hall.
  - discriminate.
  - simplify_eq. eapply classify_all_plain, Hall.
Qed.

Lemma seek_back1_plain (data : stream) (e : exn) :
  seek_back1 data = Raise e -> plain_exn e.
Proof.
  unfold seek_back1; intros H.
  destruct ((pos data =? 0)%nat && negb (in_memory data)); simplify_eq.
  exact I.
Qed.

Lemma list_globals_loop_raises genops fuel :
  forall data mp memo gl e d,
    list_globals_loop genops fuel data mp memo gl = Some (Raise e, d) ->
    plain_exn e \/ (mp = true /\ exists msg g, e = GenOpsError msg g).
Proof.
  induction fuel as [|fuel IH]; intros data mp memo gl e d H; simpl in H.
  - discriminate.
  - destruct (genops data) as [[ops err] d1].
    destruct (read1 d1) as [last_byte d2].
    destruct (seek_back1 d2) as [d3|e0] eqn:Hseek.
    + destruct (extract_globals ops (memo, gl)) as [[memo' gl']|e'] eqn:Hex.
      * destruct mp; simpl in H; [|discriminate].
        destruct err as [msg|].
        -- simplify_eq. right. eauto.
        -- destruct last_byte; [|discriminate]. eapply IH, H.
      * simplify_eq. left. eapply extract_ops_plain, Hex.
    + simplify_eq. left. eapply seek_back1_plain, Hseek.
Qed.

Lemma scan_pickle_bytes_plain genops data mp e d :
  scan_pickle_bytes genops data mp = Some (Raise e, d) -> plain_exn e.
Proof.
  unfold scan_pickle_bytes, _list_globals; intros H.
  destruct (list_globals_loop genops _ data mp ∅ ∅) as [[[raw|e'] d1]|] eqn:Hl;
    try discriminate.
  - simplify_eq. eapply build_plain; eassumption.
  - apply list_globals_loop_raises in Hl.
    destruct e' as [msg [raw|]| | | | | | |]; simplify_eq; try (simpl; exact I);
      try (destruct Hl as [Hl|(_ & msg' & g' & Hl)]; [destruct Hl | discriminate]).
    eapply build_plain; eassumption.
Qed.

Lemma scan_frames_plain genops count :
  forall data acc e d,
    scan_frames genops count data acc = Some (Raise e, d) -> plain_exn e.
Proof.
  induction count as [|count IH]; intros data acc e d H; simpl in H.
  - discriminate.
  - destruct (scan_pickle_bytes genops data false) as [[[sr|e'] d1]|] eqn:Hs;
      try discriminate.
    + eapply IH, H.
    + simplify_eq. eapply scan_pickle_bytes_plain, Hs.
Qed.

(** ** The dispatcher and the legacy tensor-archive path *)

Lemma scan_frames_step genops (count : nat) data acc R d :
  scan_frames genops (S count) data acc = Some (Ok R, d) ->
  exists r d1,
    scan_pickle_bytes genops data false = Some (Ok r, d1)
    /\ scan_frames genops count d1 (merge acc r) = Some (Ok R, d).
Proof.
  simpl; intros H.
  destruct (scan_pickle_bytes genops data false) as [[[sr|e] d1]|];
    try discriminate.
  eauto.
Qed.

Lemma set_scanned_files_issues_consistent (S : ScanResult) (v : Z) :
  issues_consistent S -> issues_consistent (set_scanned_files S v).
Proof. intros H; exact H. Qed.

Lemma produced_issues_consistent genops (S : ScanResult) :
  produced genops S -> issues_consistent S.
Proof.
  induction 1 as [| | |data mp S d H|a b _ IHa _ IHb|S _ IH].
  - reflexivity.
  - reflexivity.
  - reflexivity.
  - eapply scan_pickle_bytes_issues_consistent, H.
  - apply merge_issues_consistent; assumption.
  - apply set_scanned_files_issues_consistent, IH.
Qed.

Section Dispatcher.

Variable genops : stream -> list op * option string * stream.
Variable _is_zipfile : stream -> bool.
Variable _should_read_directly : stream -> bool.
Variable get_magic_number : stream -> option Z * stream.
Variable MAGIC_NUMBER : Z.
Variable zipfile_is_zipfile : stream -> bool.
Variable scan_zip_bytes : stream -> outcome ScanResult.
Variable scan_7z_bytes : stream -> outcome ScanResult.
Variable scan_numpy : stream -> outcome ScanResult.

Local Abbreviation scan_pytorch' :=
  (scan_pytorch genops _is_zipfile _should_read_directly get_magic_number
     MAGIC_NUMBER scan_zip_bytes scan_7z_bytes).
Local Abbreviation scan_bytes' :=
  (scan_bytes genops _is_zipfile _should_read_directly get_magic_number
     MAGIC_NUMBER zipfile_is_zipfile scan_zip_bytes scan_7z_bytes scan_numpy).

(** On the legacy path [scan_pytorch] is the five-frame loop followed by
    the assignment to [scanned_files]. *)
Lemma scan_pytorch_legacy (data d0 : stream) :
  _is_zipfile data = false ->
  _is_7z_file data = false ->
  get_magic_number
    (if _should_read_directly data && (pos data =? 0)%nat
     then seek_start data else data) = (Some MAGIC_NUMBER, d0) ->
  scan_pytorch' data =
    match scan_frames genops 5 d0 empty_result with
    | Some (Ok R, d) => Some (Ok (set_scanned_files R 1), d)
    | other => other
    end.
Proof.
  intros Hzip H7z Hmagic.
  unfold scan_pytorch.
  rewrite Hzip, H7z, Hmagic.
  rewrite bool_decide_eq_true_2 by reflexivity.
  reflexivity.
Qed.

(** C7. On the legacy tensor-archive path (an extension of the tensor
    archives, neither a zip nor a 7z signature, a valid framing magic)
    [scan_bytes] scans five frames one after the other with multi-pickle
    mode off and merges their results in order; the result it returns
    has [scanned_files = 1] whatever the frames contributed. *)
Theorem legacy_archive_scans_five_frames (data d0 : stream) (ext : string) :
  ext ∈ _pytorch_file_extensions ->
  _is_zipfile data = false ->
  _is_7z_file data = false ->
  get_magic_number
    (if _should_read_directly data && (pos data =? 0)%nat
     then seek_start data else data) = (Some MAGIC_NUMBER, d0) ->
  (forall r1 d1 r2 d2 r3 d3 r4 d4 r5 d5,
      scan_pickle_bytes genops d0 false = Some (Ok r1, d1) ->
      scan_pickle_bytes genops d1 false = Some (Ok r2, d2) ->
      scan_pickle_bytes genops d2 false = Some (Ok r3, d3) ->
      scan_pickle_bytes genops d3 false = Some (Ok r4, d4) ->
      scan_pickle_bytes genops d4 false = Some (Ok r5, d5) ->
      scan_bytes' data (Some ext) =
        Some (Ok (set_scanned_files
                    (merge (merge (merge (merge (merge empty_result r1) r2) r3) r4) r5)
                    1), d5))
  /\ (forall S d,
        scan_bytes' data (Some ext) = Some (Ok S, d) ->
        scanned_files S = 1
        /\ exists r1 d1 r2 d2 r3 d3 r4 d4 r5,
             scan_pickle_bytes genops d0 false = Some (Ok r1, d1)
             /\ scan_pickle_bytes genops d1 false = Some (Ok r2, d2)
             /\ scan_pickle_bytes genops d2 false = Some (Ok r3, d3)
             /\ scan_pickle_bytes genops d3 false = Some (Ok r4, d4)
             /\ scan_pickle_bytes genops d4 false = Some (Ok r5, d)
             /\ S = set_scanned_files
                      (merge (merge (merge (merge (merge empty_result r1) r2) r3) r4) r5)
                      1).
Proof.
  intros Hext Hzip H7z Hmagic.
  assert (Hpt : scan_bytes' data (Some ext) =
                match scan_pytorch' data with
                | Some (Raise (InvalidMagicError _), d) =>
                    Some (Ok (mkScanResult [] 0 0 0 true), d)
                | other => other
                end).
  { unfold scan_bytes.
    rewrite bool_decide_eq_true_2 by exact Hext. reflexivity. }
  rewrite Hpt, (scan_pytorch_legacy data d0 Hzip H7z Hmagic).
  split.
  - intros r1 d1 r2 d2 r3 d3 r4 d4 r5 d5 H1 H2 H3 H4 H5.
    simpl. rewrite H1; simpl. rewrite H2; simpl. rewrite H3; simpl.
    rewrite H4; simpl. rewrite H5; simpl. reflexivity.
  - intros S d H.
    destruct (scan_frames genops 5 d0 empty_result) as [[[R|e] d']|] eqn:Hf.
    + simplify_eq. split; [reflexivity|].
      apply scan_frames_step in Hf as (r1 & d1 & H1 & Hf).
      apply scan_frames_step in Hf as (r2 & d2 & H2 & Hf).
      apply scan_frames_step in Hf as (r3 & d3 & H3 & Hf).
      apply scan_frames_step in Hf as (r4 & d4 & H4 & Hf).
      apply scan_frames_step in Hf as (r5 & d5 & H5 & Hf).
      simpl in Hf. simplify_eq.
      exists r1, d1, r2, d2, r3, d3, r4, d4, r5. auto 10.
    + apply scan_frames_plain in Hf. destruct e; simplify_eq; destruct Hf.
    + discriminate.
Qed.

Hypothesis zip_consistent : returns_only issues_consistent scan_zip_bytes.
Hypothesis sevenz_consistent : returns_only issues_consistent scan_7z_bytes.
Hypothesis numpy_consistent : returns_only issues_consistent scan_numpy.

Lemma scan_pytorch_issues_consistent (data : stream) (S : ScanResult) (d : stream) :
  scan_pytorch' data = Some (Ok S, d) -> issues_consistent S.
Proof.
  unfold scan_pytorch; intros H.
  destruct (_is_zipfile data); [eapply zip_consistent, H|].
  destruct (_is_7z_file data); [eapply sevenz_consistent, H|].
  destruct (get_magic_number _) as [magic d0].
  case_bool_decide; [|discriminate].
  destruct (scan_frames genops 5 d0 _) as [[[R|e] d']|] eqn:Hf; simplify_eq.
  apply set_scanned_files_issues_consistent.
  eapply scan_frames_issues_consistent; [|exact Hf]. reflexivity.
Qed.

Lemma scan_bytes_issues_consistent (data : stream) (file_ext : option string)
    (S : ScanResult) (d : stream) :
  scan_bytes' data file_ext = Some (Ok S, d) -> issues_consistent S.
Proof.
  unfold scan_bytes; intros H.
  assert (Hsniff :
    forall S d,
      (let is_zip := zipfile_is_zipfile data in
       let data := seek_start data in
       if is_zip then scan_zip_bytes data
       else if _is_7z_file data then scan_7z_bytes data
       else scan_pickle_bytes genops data true) = Some (Ok S, d) ->
      issues_consistent S).
  { clear S d H. intros S d H. simpl in H.
    destruct (zipfile_is_zipfile data); [eapply zip_consistent, H|].
    destruct (_is_7z_file _); [eapply sevenz_consistent, H|].
    eapply scan_pickle_bytes_issues_consistent, H. }
  destruct file_ext as [ext|]; [|eapply Hsniff, H].
  case_bool_decide.
  - destruct (scan_pytorch' data) as [[[S'|e] d']|] eqn:Hp; try discriminate.
    + simplify_eq. eapply scan_pytorch_issues_consistent, Hp.
    + destruct e; simplify_eq. reflexivity.
  - case_bool_decide; [eapply numpy_consistent, H|eapply Hsniff, H].
Qed.

(** C5. In every result that a scan returns, the number of entries of
    [globals] whose safety is [Dangerous] equals [issues_count]: in the
    results built from raw globals, in those of [scan_pickle_bytes], in
    every result made of these by merges and by the assignment of
    [scan_pytorch], and in those of [scan_bytes] when the archive and
    array walkers it hands over to return such results as well; [merge]
    preserves the equality. *)
Theorem issues_count_counts_dangerous :
  (forall raw err S,
      _build_scan_result_from_raw_globals raw err = Ok S -> issues_consistent S)
  /\ (forall data mp S d,
        scan_pickle_bytes genops data mp = Some (Ok S, d) -> issues_consistent S)
  /\ (forall S, produced genops S -> issues_consistent S)
  /\ (forall data file_ext S d,
        scan_bytes' data file_ext = Some (Ok S, d) -> issues_consistent S)
  /\ (forall a b,
        issues_consistent a -> issues_consistent b -> issues_consistent (merge a b)).
Proof.
  repeat split.
  - apply build_issues_consistent.
  - intros data mp S d; apply scan_pickle_bytes_issues_consistent.
  - apply produced_issues_consistent.
  - apply scan_bytes_issues_consistent.
  - apply merge_issues_consistent.
Qed.

End Dispatcher.

(** ** The classifier against the four rules *)

Lemma tables_agree :
  Spec.UNSAFE = as_names <$> _unsafe_globals
  /\ Spec.SAFE = as_names <$> _safe_globals.
Proof. split; apply (bool_decide_unpack _); vm_compute; exact I. Qed.

Lemma safe_filters_are_sets (m : string) (flt : pyfilter) :
  _safe_globals !! m = Some flt -> exists l, flt = FSet l.
Proof.
  assert (H : map_Forall (fun _ flt => is_set flt = true) _safe_globals).
  { apply (bool_decide_unpack _). vm_compute. exact I. }
  intros Hm. specialize (H m flt Hm). destruct flt; [eauto|discriminate].
Qed.

Lemma prefix_refl (s : string) : String.prefix s s = true.
Proof.
  induction s as [|c s IH]; simpl; [reflexivity|].
  destruct (ascii_dec c c); [exact IH|done].
Qed.

Lemma str_contains_refl (s : string) : str_contains s s = true.
Proof.
  destruct s as [|c s]; simpl; [reflexivity|].
  destruct (ascii_dec c c); [|done]. by rewrite prefix_refl.
Qed.

Lemma unsafe_lookup (m : string) :
  Spec.UNSAFE !! m = as_names <$> (_unsafe_globals !! m).
Proof. destruct tables_agree as [-> _]. apply lookup_fmap. Qed.

Lemma safe_lookup (m : string) :
  Spec.SAFE !! m = as_names <$> (_safe_globals !! m).
Proof. destruct tables_agree as [_ ->]. apply lookup_fmap. Qed.

Lemma safe_listed (m n : string) :
  match _safe_globals !! m with
  | Some flt => filter_is_star flt || filter_contains n flt
  | None => false
  end = Spec.listed Spec.SAFE m n.
Proof.
  unfold Spec.listed. rewrite safe_lookup.
  pose proof (safe_filters_are_sets m) as Hsets.
  destruct (_safe_globals !! m) as [flt|]; [|reflexivity].
  destruct (Hsets flt eq_refl) as [l ->]. reflexivity.
Qed.

Lemma unsafe_listed (m n : string) :
  (forall s, _unsafe_globals !! m = Some (FStr s) ->
             s = "*" \/ (str_contains n s = true -> n = s)) ->
  match _unsafe_globals !! m with
  | Some flt => filter_is_star flt || filter_contains n flt
  | None => false
  end = Spec.listed Spec.UNSAFE m n.
Proof.
  intros Hbare. unfold Spec.listed. rewrite unsafe_lookup.
  destruct (_unsafe_globals !! m) as [[l|s]|]; try reflexivity.
  cbn [fmap option_fmap option_map as_names filter_is_star filter_contains].
  destruct (String.eqb s "*") eqn:Hstar; [reflexivity|].
  destruct (Hbare s eq_refl) as [->|Hsub]; [discriminate|].
  cbn [orb].
  destruct (str_contains n s) eqn:Hc.
  - rewrite (Hsub eq_refl). symmetry. apply bool_decide_eq_true_2. set_solver.
  - symmetry. apply bool_decide_eq_false_2. intros Hin.
    apply list_elem_of_singleton in Hin. subst n.
    rewrite str_contains_refl in Hc. discriminate.
Qed.

(** The classifier follows the four rules of section 4.3 on every pair
    of strings, except where the table of the code holds a bare name and
    [n] is a proper substring of it. *)
Lemma classify_follows_rules (m n : string) :
  (forall s, _unsafe_globals !! m = Some (FStr s) ->
             s = "*" \/ (str_contains n s = true -> n = s)) ->
  classify (PStr m) (PStr n) = Ok (Spec.classify m n).
Proof.
  intros Hbare.
  unfold classify, Spec.classify, bind, unknown_in, table_get.
  rewrite (unsafe_listed m n Hbare), safe_listed.
  destruct (str_contains "unknown" m); [reflexivity|].
  destruct (str_contains "unknown" n); [reflexivity|].
  cbn [orb].
  destruct (Spec.listed Spec.UNSAFE m n); [reflexivity|].
  destruct (Spec.listed Spec.SAFE m n); reflexivity.
Qed.

(** C1. The rules of the claim give [Suspicious], no issue, to the pair
    [("functools", "part")]: ["part"] is not in [UNSAFE["functools"]],
    which is [{partial}].  The code holds the bare string ["partial"]
    for [functools], tests [n in "partial"] on it, and gives
    [Dangerous], an issue; so it does for the empty name. *)
Theorem classify_bare_name_matches_substrings :
  classify (PStr "functools") (PStr "part") = Ok (Dangerous, true)
  /\ Spec.classify "functools" "part" = (Suspicious, false)
  /\ classify (PStr "functools") (PStr "") = Ok (Dangerous, true)
  /\ Spec.classify "functools" "" = (Suspicious, false).
Proof. repeat split; vm_compute; reflexivity. Qed.
(** ** The operands of [STACK_GLOBAL] *)


(** Once two values are collected the loop has stopped: more offsets
    change nothing. *)
Lemma collect_values_break memo ops n offsets more :
  forall values values',
    (length values < 2)%nat ->
    collect_values memo ops n offsets values = Ok values' ->
    length values' = 2%nat ->
    collect_values memo ops n (offsets ++ more) values = Ok values'.
Proof.
  induction offsets as [|offset rest IH]; intros values values' Hlt H Hlen; simpl in H.
  - simplify_eq. lia.
  - simpl.
    destruct (ops !! (n - offset)%nat) as [[nm arg]|]; [|discriminate].
    destruct (name_in nm ["MEMOIZE"; "PUT"; "BINPUT"; "LONG_BINPUT"]); [eauto|].
    unfold bind in *.
    match type of H with
    | match ?c with _ => _ end = _ => destruct c as [v|]; [|discriminate]
    end.
    destruct (length (values ++ [v]) =? 2)%nat eqn:Hv; [exact H|].
    apply IH; [|exact H|exact Hlen].
    apply Nat.eqb_neq in Hv. rewrite length_app in *. simpl in *. lia.
Qed.

(** Whatever pair the code adds for a [STACK_GLOBAL] is the pair of the
    backward scan that goes down to index [0]. *)
Lemma stack_global_refines_spec memo ops n pair :
  stack_global memo ops n = Ok pair -> Spec.stack_global memo ops n = Ok pair.
Proof.
  unfold stack_global, Spec.stack_global, bind; intros H.
  destruct (collect_values memo ops n (seq 1 (n - 1)) []) as [values|] eqn:Hc;
    [|discriminate].
  destruct values as [|v0 [|v1 [|v2 tl]]]; try discriminate.
  destruct n as [|n].
  - simpl in Hc. discriminate.
  - replace (seq 1 (S n)) with (seq 1 (S n - 1) ++ [S n]).
    + rewrite (collect_values_break memo ops (S n) _ [S n] [] [v0; v1]);
        [exact H | simpl; lia | exact Hc | reflexivity].
    + replace (S n - 1)%nat with n by lia. rewrite seq_S. f_equal.
Qed.


(** C2. On [SHORT_BINUNICODE "os"], [SHORT_BINUNICODE "system"],
    [STACK_GLOBAL], [STOP] (what the reader yields for the bytes
    [8c 02 6f 73 8c 06 73 79 73 74 65 6d 93 2e]) the backward scan of
    the claim collects ["system"] then ["os"] and emits [("os",
    "system")]; the loop of the code ranges over [range(1, n)], never
    looks at index [0], collects one value, and raises [ValueError]. *)
Theorem stack_global_misses_index_zero :
  fst (fst (PickleTools.genops (stream_of pickle_stack_global_first)))
    = ops_stack_global_first
  /\ ops_stack_global_first !! 2%nat = Some ("STACK_GLOBAL", PNone)
  /\ Spec.stack_global ∅ ops_stack_global_first 2 = Ok [PStr "os"; PStr "system"]
  /\ stack_global ∅ ops_stack_global_first 2
       = Raise (ValueError "Found 1 values for STACK_GLOBAL at position 2 instead of 2.")
  /\ fst <$> scan_pickle_bytes PickleTools.genops
               (stream_of pickle_stack_global_first) true
       = Some (Raise (ValueError "Found 1 values for STACK_GLOBAL at position 2 instead of 2.")).
Proof. repeat split; vm_compute; reflexivity. Qed.

(** ** Failures of the extractor *)

Lemma extract_ops_app ops (l1 l2 : list nat) :
  forall st,
    extract_ops ops (l1 ++ l2) st =
    let* st := extract_ops ops l1 st in extract_ops ops l2 st.
Proof.
  induction l1 as [|n l1 IH]; intros st; simpl; [reflexivity|].
  unfold bind at 1 3. destruct (extract_op ops st n) as [st'|e]; [apply IH|reflexivity].
Qed.

Lemma seq_split_at (n len : nat) :
  (n < len)%nat -> seq 0 len = seq 0 n ++ n :: seq (S n) (len - S n).
Proof.
  intros Hlt.
  replace len with (n + S (len - S n))%nat at 1 by lia.
  rewrite seq_app. reflexivity.
Qed.


(** The first turn of the loop of [_list_globals] when the reader fails
    in multi-pickle mode and the extraction does not raise. *)
Lemma list_globals_reader_failure genops data ops msg d1 d2 memo gl :
  genops data = (ops, Some msg, d1) ->
  seek_back1 (snd (read1 d1)) = Ok d2 ->
  extract_globals ops (∅, ∅) = Ok (memo, gl) ->
  _list_globals genops data true =
    Some (Raise (GenOpsError msg (if (0 <? size gl)%nat then Some gl else None)),
          d2).
Proof.
  intros Hg Hseek Hex. unfold _list_globals. cbn [list_globals_loop].
  rewrite Hg. destruct (read1 d1) as [last_byte d']. simpl in Hseek.
  rewrite Hseek, Hex. reflexivity.
Qed.

(** On an empty file opened from disk the relative seek of the loop
    raises, whatever the mode. *)
Lemma list_globals_seek_failure genops data ops err d1 mp :
  genops data = (ops, err, d1) ->
  seek_back1 (snd (read1 d1)) = Raise OSError ->
  _list_globals genops data mp = Some (Raise OSError, snd (read1 d1)).
Proof.
  intros Hg Hseek. unfold _list_globals. cbn [list_globals_loop].
  rewrite Hg. destruct (read1 d1) as [last_byte d']. simpl in *.
  rewrite Hseek. reflexivity.
Qed.




Lemma classify_all_pairs (raw : list (list pyval)) :
  forall gs ic gs' ic',
    classify_all raw gs ic = Ok (gs', ic') ->
    (fun g => [module g; name g]) <$> gs'
    = ((fun g => [module g; name g]) <$> gs) ++ (take 2 <$> raw).
Proof.
  induction raw as [|rg rest IH]; intros gs ic gs' ic' H; cbn [classify_all] in H.
  - simplify_eq. by rewrite app_nil_r.
  - destruct rg as [|m [|n tl]]; try discriminate.
    destruct (classify m n) as [[s issue]|e]; cbn [bind] in H; [|discriminate].
    rewrite (IH _ _ _ _ H), fmap_app, <- app_assoc. reflexivity.
Qed.

Lemma build_pairs (raw : gset (list pyval)) (err : bool) (S : ScanResult) :
  _build_scan_result_from_raw_globals raw err = Ok S ->
  (fun g => [module g; name g]) <$> globals S = take 2 <$> elements raw.
Proof.
  unfold _build_scan_result_from_raw_globals; intros H.
  destruct (classify_all (elements raw) [] 0) as [[gs ic]|e] eqn:Hall;
    cbn [bind] in H; [|discriminate].
  simplify_eq. apply (classify_all_pairs _ _ _ _ _ Hall).
Qed.









(** The condition on the carried globals is needed: in
    [pickle_integer_module] the module operand of the [STACK_GLOBAL] is
    an integer of the memo table; the reader's failure carries the pair
    [(5, "x")], and its classification raises [TypeError]. *)
Example parse_failure_with_integer_module :
  fst <$> _list_globals PickleTools.genops (stream_of pickle_integer_module) true
    = Some (Raise (GenOpsError "pickle exhausted before seeing STOP"
                     (Some {[ [PInt 5; PStr "x"] ]})))
  /\ fst <$> scan_pickle_bytes PickleTools.genops
               (stream_of pickle_integer_module) true
     = Some (Raise TypeError).
Proof.
  split.
  - apply (bool_decide_unpack _). vm_compute. exact I.
  - vm_compute. reflexivity.
Qed.

(** ** Concatenated pickles *)

(** C6. [pickle_A] is the pickle of the string ["x"], [pickle_B] a
    pickle of [builtins.eval]; the reader reads each to its end without
    failure.  Alone, [pickle_A] yields no global and [pickle_B] yields
    [("builtins", "eval")], so the union is [{("builtins", "eval")}].
    The memo table of the code is created before the loop over the
    pickles and is not reset: in [pickle_A ++ pickle_B] the [MEMOIZE]s of
    [pickle_B] store at the keys 1 and 2, [BINGET 0] finds the ["x"] of
    [pickle_A], and the scan yields [("x", "builtins")] alone, which is
    classified as suspicious. *)
Theorem memo_is_kept_between_pickles :
  snd (fst (PickleTools.genops (stream_of pickle_A))) = None
  /\ snd (fst (PickleTools.genops (stream_of pickle_B))) = None
  /\ extracted pickle_A = Some (Ok [])
  /\ extracted pickle_B = Some (Ok [[PStr "builtins"; PStr "eval"]])
  /\ extracted (pickle_A ++ pickle_B) = Some (Ok [[PStr "x"; PStr "builtins"]])
  /\ fst <$> scan_pickle_bytes PickleTools.genops (stream_of pickle_B) true
       = Some (Ok (mkScanResult
                     [mkGlobal (PStr "builtins") (PStr "eval") Dangerous]
                     1 1 1 false))
  /\ fst <$> scan_pickle_bytes PickleTools.genops
               (stream_of (pickle_A ++ pickle_B)) true
       = Some (Ok (mkScanResult
                     [mkGlobal (PStr "x") (PStr "builtins") Suspicious]
                     1 0 0 false)).
Proof. repeat split; vm_compute; reflexivity. Qed.

(** ** The empty stream *)

(** C8, counterexample.  On the empty stream the reader raises at once
    (no [STOP]); in multi-pickle mode, the default of the entry points,
    [_list_globals] raises [GenOpsError] with no globals, and
    [scan_pickle_bytes] returns [ScanResult([], scan_err=True)]:
    [scan_err] is true and [scanned_files] is 0.  That is for an
    in-memory stream; on an empty file opened from disk the scan ends
    with [OSError]. *)
Lemma empty_stream_sets_scan_err :
  scan_pickle_bytes PickleTools.genops (stream_of []) true
    = Some (Ok (mkScanResult [] 0 0 0 true), stream_of [])
  /\ ~ (exists S d,
          scan_pickle_bytes PickleTools.genops (stream_of []) true = Some (Ok S, d)
          /\ globals S = [] /\ scan_err S = false /\ scanned_files S = 1)
  /\ scan_pickle_bytes PickleTools.genops (file_of []) true
      = Some (Raise OSError, file_of []).
Proof.
  split; [vm_compute; reflexivity|].
  split; [|vm_compute; reflexivity].
  intros (S & d & H & _ & Herr & _). vm_compute in H. by simplify_eq.
Qed.

(** C8, as amended.  The reader fails on the empty stream without
    yielding an operation.  Scanning an empty in-memory stream through
    [scan_pickle_bytes] in multi-pickle mode, and through [scan_bytes]
    for an input that is no tensor archive, no array and no zip, returns
    the result with empty [globals], [scan_err = True] and
    [scanned_files = 0]. *)
Theorem empty_stream_scan
    (genops : stream -> list op * option string * stream)
    (_is_zipfile _should_read_directly : stream -> bool)
    (get_magic_number : stream -> option Z * stream) (MAGIC_NUMBER : Z)
    (zipfile_is_zipfile : stream -> bool)
    (scan_zip_bytes scan_7z_bytes scan_numpy : stream -> outcome ScanResult)
    (file_ext : option string) (msg : string) :
  genops (stream_of []) = ([], Some msg, stream_of []) ->
  zipfile_is_zipfile (stream_of []) = false ->
  (forall ext, file_ext = Some ext ->
               (ext ∉ _pytorch_file_extensions) /\ (ext ∉ _numpy_file_extensions)) ->
  scan_pickle_bytes genops (stream_of []) true
    = Some (Ok (mkScanResult [] 0 0 0 true), stream_of [])
  /\ scan_bytes genops _is_zipfile _should_read_directly get_magic_number
       MAGIC_NUMBER zipfile_is_zipfile scan_zip_bytes scan_7z_bytes scan_numpy
       (stream_of []) file_ext
     = Some (Ok (mkScanResult [] 0 0 0 true), stream_of []).
Proof.
  intros Hreader Hzip Hext.
  assert (Hscan : scan_pickle_bytes genops (stream_of []) true
                  = Some (Ok (mkScanResult [] 0 0 0 true), stream_of [])).
  { unfold scan_pickle_bytes.
    rewrite (list_globals_reader_failure genops (stream_of []) [] msg
               (stream_of []) (stream_of []) ∅ ∅ Hreader eq_refl eq_refl).
    reflexivity. }
  split; [exact Hscan|].
  assert (Hsniff :
    (let is_zip := zipfile_is_zipfile (stream_of []) in
     let data := seek_start (stream_of []) in
     if is_zip then scan_zip_bytes data
     else if _is_7z_file data then scan_7z_bytes data
     else scan_pickle_bytes genops data true)
    = Some (Ok (mkScanResult [] 0 0 0 true), stream_of [])).
  { cbv zeta. rewrite Hzip. exact Hscan. }
  unfold scan_bytes.
  destruct file_ext as [ext|]; [|exact Hsniff].
  destruct (Hext ext eq_refl) as [Hpt Hnp].
  rewrite !bool_decide_eq_false_2 by assumption.
  exact Hsniff.
Qed.

(** C8, witness: the reference reader, a file named [.pkl]. *)
Lemma empty_stream_scan_witness :
  scan_pickle_bytes PickleTools.genops (stream_of []) true
    = Some (Ok (mkScanResult [] 0 0 0 true), stream_of [])
  /\ scan_bytes PickleTools.genops Torch._is_zipfile Torch._should_read_directly
       Torch.get_magic_number Torch.MAGIC_NUMBER Torch.zipfile_is_zipfile
       Torch.scan_no_members Torch.scan_no_members Torch.scan_no_members
       (stream_of []) (Some ".pkl")
     = Some (Ok (mkScanResult [] 0 0 0 true), stream_of []).
Proof.
  apply (empty_stream_scan PickleTools.genops Torch._is_zipfile
           Torch._should_read_directly Torch.get_magic_number Torch.MAGIC_NUMBER
           Torch.zipfile_is_zipfile Torch.scan_no_members Torch.scan_no_members
           Torch.scan_no_members (Some ".pkl")
           "pickle exhausted before seeing STOP").
  - reflexivity.
  - reflexivity.
  - intros ext Hext. injection Hext as <-.
    split; apply (bool_decide_unpack _); vm_compute; exact I.
Defined.

(** On an empty file opened from disk the loop does not get that far:
    [data.seek(-1, 1)] is not guarded as the back-up seek of
    [scan_numpy] is, and raises [OSError] at position 0, in either mode;
    nothing catches it. *)
Lemma empty_file_scan_raises
    (genops : stream -> list op * option string * stream)
    (ops : list op) (err : option string) (mp : bool) :
  genops (file_of []) = (ops, err, file_of []) ->
  scan_pickle_bytes genops (file_of []) mp = Some (Raise OSError, file_of []).
Proof.
  intros Hfile. unfold scan_pickle_bytes.
  rewrite (list_globals_seek_failure genops (file_of []) ops err
             (file_of []) mp Hfile eq_refl).
  reflexivity.
Qed.

(** ** Infected files against scanned files *)

Lemma build_infected_le_scanned raw err S :
  _build_scan_result_from_raw_globals raw err = Ok S -> infected_le_scanned S.
Proof.
  intros H. apply build_counters in H as (Hs & _ & Hi).
  unfold infected_le_scanned. rewrite Hs, Hi.
  destruct (0 <? issues_count S); lia.
Qed.

Lemma merge_infected_le_scanned (a b : ScanResult) :
  infected_le_scanned a -> infected_le_scanned b -> infected_le_scanned (merge a b).
Proof. unfold infected_le_scanned; simpl; lia. Qed.

(** Off the legacy tensor-archive path the invariant holds: in every
    result of [scan_pickle_bytes], and through [merge]. *)
Lemma scan_pickle_bytes_infected_le_scanned genops data mp S d :
  scan_pickle_bytes genops data mp = Some (Ok S, d) -> infected_le_scanned S.
Proof.
  intros H. apply scan_pickle_bytes_cases in H as [(raw & err & H)| ->].
  - eapply build_infected_le_scanned, H.
  - unfold infected_le_scanned; simpl; lia.
Qed.

(** C4. A legacy tensor archive (the header pickle with the magic
    number, then two pickles that each import [os.system]): each of the
    two frames counts one infected file, the three remaining turns of
    the loop add none, and [scan_pytorch] then sets [scanned_files] to 1
    without touching [infected_files].  The result has
    [infected_files = 2] and [scanned_files = 1], whether the framing
    check leaves the stream at its start or after the header. *)
Theorem legacy_archive_infected_exceeds_scanned
    (_is_zipfile _should_read_directly : stream -> bool)
    (get_magic_number : stream -> option Z * stream) (MAGIC_NUMBER : Z)
    (scan_zip_bytes scan_7z_bytes : stream -> outcome ScanResult) (k : nat) :
  _is_zipfile (stream_of legacy_two_infected) = false ->
  get_magic_number (stream_of legacy_two_infected)
    = (Some MAGIC_NUMBER, mkStream legacy_two_infected k true) ->
  k = 0%nat \/ k = length pickle_magic ->
  exists S d,
    scan_pytorch PickleTools.genops _is_zipfile _should_read_directly
      get_magic_number MAGIC_NUMBER scan_zip_bytes scan_7z_bytes
      (stream_of legacy_two_infected) = Some (Ok S, d)
    /\ infected_files S = 2
    /\ scanned_files S = 1
    /\ ~ infected_le_scanned S.
Proof.
  intros Hzip Hmagic Hk.
  assert (H7z : _is_7z_file (stream_of legacy_two_infected) = false)
    by (vm_compute; reflexivity).
  rewrite (scan_pytorch_legacy PickleTools.genops _is_zipfile _should_read_directly
             get_magic_number MAGIC_NUMBER scan_zip_bytes scan_7z_bytes
             (stream_of legacy_two_infected) (mkStream legacy_two_infected k true)
             Hzip H7z).
  - destruct Hk as [-> | ->].
    + eexists _, _. split; [vm_compute; reflexivity|].
      repeat split. unfold infected_le_scanned; simpl; lia.
    + eexists _, _. split; [vm_compute; reflexivity|].
      repeat split. unfold infected_le_scanned; simpl; lia.
  - destruct (_should_read_directly (stream_of legacy_two_infected)); exact Hmagic.
Qed.

(** C4, witness: the framing check that reads the header pickle and
    leaves the stream after it. *)
Lemma legacy_archive_infected_exceeds_scanned_witness :
  exists S d,
    scan_pytorch PickleTools.genops Torch._is_zipfile Torch._should_read_directly
      Torch.get_magic_number Torch.MAGIC_NUMBER
      Torch.scan_no_members Torch.scan_no_members
      (stream_of legacy_two_infected) = Some (Ok S, d)
    /\ infected_files S = 2
    /\ scanned_files S = 1
    /\ ~ infected_le_scanned S.
Proof.
  apply (legacy_archive_infected_exceeds_scanned Torch._is_zipfile
           Torch._should_read_directly Torch.get_magic_number Torch.MAGIC_NUMBER
           Torch.scan_no_members Torch.scan_no_members (length pickle_magic)).
  - vm_compute; reflexivity.
  - vm_compute; reflexivity.
  - right; reflexivity.
Defined.

(** ** [merge] on the heap *)

Lemma extend_globals_inv self sr h h1 :
  Heap.extend_globals self sr h = Some h1 ->
  exists o_self o_sr l_self l_sr,
    Heap.objects h !! self = Some o_self
    /\ Heap.objects h !! sr = Some o_sr
    /\ Heap.lists h !! Heap.o_globals o_self = Some l_self
    /\ Heap.lists h !! Heap.o_globals o_sr = Some l_sr
    /\ h1 = Heap.mkHeap (<[Heap.o_globals o_self := l_self ++ l_sr]> (Heap.lists h))
                        (Heap.objects h).
Proof.
  unfold Heap.extend_globals; intros H.
  destruct (Heap.objects h !! self) as [o_self|]; [|discriminate].
  destruct (Heap.objects h !! sr) as [o_sr|]; [|discriminate].
  simpl in H.
  destruct (Heap.lists h !! Heap.o_globals o_self) as [l_self|] eqn:Hl1;
    [|discriminate].
  simpl in H.
  destruct (Heap.lists h !! Heap.o_globals o_sr) as [l_sr|] eqn:Hl2;
    [|discriminate].
  simpl in H. simplify_eq.
  exists o_self, o_sr, l_self, l_sr. repeat split; assumption.
Qed.

Lemma update_field_inv set self sr h h1 :
  Heap.update_field set self sr h = Some h1 ->
  exists o_self o_sr,
    Heap.objects h !! self = Some o_self
    /\ Heap.objects h !! sr = Some o_sr
    /\ h1 = Heap.mkHeap (Heap.lists h) (<[self := set o_self o_sr]> (Heap.objects h)).
Proof.
  unfold Heap.update_field; intros H.
  destruct (Heap.objects h !! self) as [o_self|]; [|discriminate].
  destruct (Heap.objects h !! sr) as [o_sr|]; [|discriminate].
  simpl in H. simplify_eq.
  exists o_self, o_sr. repeat split.
Qed.

(** [merge] writes the receiver and the receiver's list, nothing else. *)
Lemma merge_frame self sr h h' o_self :
  Heap.objects h !! self = Some o_self ->
  Heap.merge self sr h = Some h' ->
  (forall l, l <> self -> Heap.objects h' !! l = Heap.objects h !! l)
  /\ (forall l, l <> Heap.o_globals o_self -> Heap.lists h' !! l = Heap.lists h !! l).
Proof.
  unfold Heap.merge; intros Hself H.
  destruct (Heap.extend_globals self sr h) as [h1|] eqn:H1; [|discriminate].
  simpl in H.
  destruct (Heap.update_field Heap.add_scanned_files self sr h1) as [h2|] eqn:H2;
    [|discriminate]. simpl in H.
  destruct (Heap.update_field Heap.add_issues_count self sr h2) as [h3|] eqn:H3;
    [|discriminate]. simpl in H.
  destruct (Heap.update_field Heap.add_infected_files self sr h3) as [h4|] eqn:H4;
    [|discriminate]. simpl in H.
  apply extend_globals_inv in H1 as (o1 & ? & ? & ? & Ho1 & _ & _ & _ & ->).
  apply update_field_inv in H2 as (? & ? & _ & _ & ->).
  apply update_field_inv in H3 as (? & ? & _ & _ & ->).
  apply update_field_inv in H4 as (? & ? & _ & _ & ->).
  apply update_field_inv in H as (? & ? & _ & _ & ->).
  simpl in *. simplify_eq. split.
  - intros l Hl. by rewrite !lookup_insert_ne.
  - intros l Hl. by rewrite lookup_insert_ne.
Qed.

(** C10, as amended.  When [b] is an object other than [a] and the list
    held by [b.globals] is not the list held by [a.globals],
    [a.merge(b)] leaves [b] unchanged in every field, and the list of
    [b] unchanged; it writes no object but [a] and no list but the one
    of [a]. *)
Theorem merge_leaves_argument_unchanged (h h' : Heap.heap)
    (self sr : Heap.loc) (o_self o_sr : Heap.object) :
  Heap.objects h !! self = Some o_self ->
  Heap.objects h !! sr = Some o_sr ->
  self <> sr ->
  Heap.o_globals o_self <> Heap.o_globals o_sr ->
  Heap.merge self sr h = Some h' ->
  Heap.objects h' !! sr = Some o_sr
  /\ Heap.lists h' !! Heap.o_globals o_sr = Heap.lists h !! Heap.o_globals o_sr
  /\ Heap.value_of h' sr = Heap.value_of h sr
  /\ (forall l, l <> self -> Heap.objects h' !! l = Heap.objects h !! l)
  /\ (forall l, l <> Heap.o_globals o_self -> Heap.lists h' !! l = Heap.lists h !! l).
Proof.
  intros Hself Hsr Hne Hlist Hmerge.
  destruct (merge_frame self sr h h' o_self Hself Hmerge) as [Hobj Hlists].
  assert (Ho : Heap.objects h' !! sr = Some o_sr)
    by (rewrite Hobj by congruence; exact Hsr).
  assert (Hl : Heap.lists h' !! Heap.o_globals o_sr = Heap.lists h !! Heap.o_globals o_sr)
    by (apply Hlists; congruence).
  repeat split; try assumption.
  unfold Heap.value_of. rewrite Ho, Hsr. simpl. rewrite Hl. reflexivity.
Qed.

(** C10, witness: two results with a list each. *)
Lemma merge_leaves_argument_unchanged_witness :
  exists h',
    Heap.merge 1%positive 2%positive heap_apart = Some h'
    /\ Heap.value_of h' 2%positive = Heap.value_of heap_apart 2%positive
    /\ Heap.value_of h' 1%positive = Some (mkScanResult [g_os_system] 1 1 1 false).
Proof.
  destruct (Heap.merge 1%positive 2%positive heap_apart) as [h'|] eqn:Hm;
    [|vm_compute in Hm; discriminate].
  exists h'. split; [reflexivity|]. split.
  - refine (proj1 (proj2 (proj2
      (merge_leaves_argument_unchanged heap_apart h' 1%positive 2%positive
         (Heap.mkObject 1%positive 0 0 0 false)
         (Heap.mkObject 2%positive 1 1 1 false) _ _ _ _ Hm)))).
    + reflexivity.
    + reflexivity.
    + discriminate.
    + discriminate.
  - vm_compute in Hm. injection Hm as <-. reflexivity.
Defined.

(** C10, counterexample.  [a.merge(a)] doubles [a], which is the
    argument; and with [a] and [b] two objects that hold one list,
    [a.merge(b)] extends that list, so [b.globals] has two entries
    afterwards. *)
Lemma merge_changes_aliased_argument :
  (exists h',
     Heap.merge 1%positive 1%positive heap_one = Some h'
     /\ Heap.value_of heap_one 1%positive
          = Some (mkScanResult [g_os_system] 1 1 1 false)
     /\ Heap.value_of h' 1%positive
          = Some (mkScanResult [g_os_system; g_os_system] 2 2 2 false))
  /\ (exists h',
        Heap.merge 1%positive 2%positive heap_shared = Some h'
        /\ Heap.value_of heap_shared 2%positive
             = Some (mkScanResult [g_os_system] 1 1 1 false)
        /\ Heap.value_of h' 2%positive
             = Some (mkScanResult [g_os_system; g_os_system] 1 1 1 false)).
Proof.
  split.
  - destruct (Heap.merge 1%positive 1%positive heap_one) as [h'|] eqn:Hm;
      vm_compute in Hm; [|discriminate].
    injection Hm as <-. eexists. repeat split.
  - destruct (Heap.merge 1%positive 2%positive heap_shared) as [h'|] eqn:Hm;
      vm_compute in Hm; [|discriminate].
    injection Hm as <-. eexists. repeat split.
Qed.

Lemma extend_globals_ok self sr h o_self o_sr l_self l_sr :
  Heap.objects h !! self = Some o_self ->
  Heap.objects h !! sr = Some o_sr ->
  Heap.lists h !! Heap.o_globals o_self = Some l_self ->
  Heap.lists h !! Heap.o_globals o_sr = Some l_sr ->
  Heap.extend_globals self sr h =
    Some (Heap.mkHeap (<[Heap.o_globals o_self := l_self ++ l_sr]> (Heap.lists h))
                      (Heap.objects h)).
Proof.
  intros H1 H2 H3 H4. unfold Heap.extend_globals.
  rewrite H1; simpl. rewrite H2; simpl. rewrite H3; simpl. rewrite H4; reflexivity.
Qed.

Lemma update_field_ok set self sr h o_self o_sr :
  Heap.objects h !! self = Some o_self ->
  Heap.objects h !! sr = Some o_sr ->
  Heap.update_field set self sr h =
    Some (Heap.mkHeap (Heap.lists h) (<[self := set o_self o_sr]> (Heap.objects h))).
Proof.
  intros H1 H2. unfold Heap.update_field.
  rewrite H1; simpl. rewrite H2; reflexivity.
Qed.

(** The receiver ends with the value of [merge] on the two values read
    before the call, whether or not the two results share anything. *)
Lemma merge_receiver_value (h : Heap.heap) (self sr : Heap.loc) (a b : ScanResult) :
  Heap.value_of h self = Some a ->
  Heap.value_of h sr = Some b ->
  exists h',
    Heap.merge self sr h = Some h' /\ Heap.value_of h' self = Some (merge a b).
Proof.
  unfold Heap.value_of; intros Ha Hb.
  destruct (Heap.objects h !! self) as [o_self|] eqn:Hself; [|discriminate].
  destruct (Heap.objects h !! sr) as [o_sr|] eqn:Hsr; [|discriminate].
  simpl in Ha, Hb.
  destruct (Heap.lists h !! Heap.o_globals o_self) as [l_self|] eqn:Hl1; [|discriminate].
  destruct (Heap.lists h !! Heap.o_globals o_sr) as [l_sr|] eqn:Hl2; [|discriminate].
  simpl in Ha, Hb. simplify_eq.
  unfold Heap.merge.
  rewrite (extend_globals_ok self sr h o_self o_sr l_self l_sr Hself Hsr Hl1 Hl2).
  cbn [mbind option_bind].
  destruct (decide (self = sr)) as [->|Hne].
  - simplify_eq.
    erewrite update_field_ok; [|eassumption|eassumption]. cbn [mbind option_bind].
    erewrite update_field_ok; [|apply lookup_insert_eq|apply lookup_insert_eq].
    cbn [mbind option_bind].
    erewrite update_field_ok; [|apply lookup_insert_eq|apply lookup_insert_eq].
    cbn [mbind option_bind].
    erewrite update_field_ok; [|apply lookup_insert_eq|apply lookup_insert_eq].
    eexists. split; [reflexivity|].
    cbn [Heap.objects Heap.lists]. rewrite lookup_insert_eq.
    cbn. rewrite lookup_insert_eq. reflexivity.
  - erewrite update_field_ok; [|exact Hself|exact Hsr]. cbn [mbind option_bind].
    erewrite update_field_ok;
      [|apply lookup_insert_eq|cbn; rewrite lookup_insert_ne by exact Hne; exact Hsr].
    cbn [mbind option_bind].
    erewrite update_field_ok;
      [|apply lookup_insert_eq
       |cbn; rewrite !lookup_insert_ne by exact Hne; exact Hsr].
    cbn [mbind option_bind].
    erewrite update_field_ok;
      [|apply lookup_insert_eq
       |cbn; rewrite !lookup_insert_ne by exact Hne; exact Hsr].
    eexists. split; [reflexivity|].
    cbn [Heap.objects Heap.lists]. rewrite lookup_insert_eq.
    cbn. rewrite lookup_insert_eq. reflexivity.
Qed.

(** C9. [merge(a, b)] appends [b.globals] after [a.globals] in order,
    adds [scanned_files], [issues_count] and [infected_files] field by
    field, and makes [scan_err] the disjunction of the two flags; [merge]
    is associative.  The method on the heap leaves the receiver with
    that value. *)
Theorem merge_fields_and_assoc :
  (forall a b c : ScanResult,
      globals (merge a b) = globals a ++ globals b
      /\ scanned_files (merge a b) = scanned_files a + scanned_files b
      /\ issues_count (merge a b) = issues_count a + issues_count b
      /\ infected_files (merge a b) = infected_files a + infected_files b
      /\ scan_err (merge a b) = (scan_err a || scan_err b)
      /\ merge (merge a b) c = merge a (merge b c))
  /\ (forall (h : Heap.heap) (self sr : Heap.loc) (a b : ScanResult),
        Heap.value_of h self = Some a ->
        Heap.value_of h sr = Some b ->
        exists h',
          Heap.merge self sr h = Some h'
          /\ Heap.value_of h' self = Some (merge a b)).
Proof.
  split.
  - intros a b c. repeat split. apply merge_assoc.
  - apply merge_receiver_value.
Qed.

(** ** Instances *)

Lemma scan_no_members_consistent :
  returns_only issues_consistent Torch.scan_no_members.
Proof. intros data S d H. unfold Torch.scan_no_members in H. by simplify_eq. Qed.

(** C5, witness: the scan of [GLOBAL "os system"], [STOP]. *)
Lemma issues_count_counts_dangerous_witness :
  issues_consistent (mkScanResult [g_os_system] 1 1 1 false).
Proof.
  refine (proj1 (proj2
    (issues_count_counts_dangerous PickleTools.genops Torch._is_zipfile
       Torch._should_read_directly Torch.get_magic_number Torch.MAGIC_NUMBER
       Torch.zipfile_is_zipfile Torch.scan_no_members Torch.scan_no_members
       Torch.scan_no_members scan_no_members_consistent
       scan_no_members_consistent scan_no_members_consistent))
    (stream_of pickle_os_system) true _ (mkStream pickle_os_system 11 true) _).
  vm_compute; reflexivity.
Defined.

(** C7, witness: the legacy archive with two infected frames, named
    [.pt]; the five scans are the two frames and three times the last
    [STOP]. *)
Lemma legacy_archive_scans_five_frames_witness :
  scan_bytes PickleTools.genops Torch._is_zipfile Torch._should_read_directly
    Torch.get_magic_number Torch.MAGIC_NUMBER Torch.zipfile_is_zipfile
    Torch.scan_no_members Torch.scan_no_members Torch.scan_no_members
    (stream_of legacy_two_infected) (Some ".pt")
  = Some (Ok (mkScanResult [g_os_system; g_os_system] 1 2 2 false),
          mkStream legacy_two_infected 38 true).
Proof.
  pose (one := mkScanResult [g_os_system] 1 1 1 false).
  pose (none := mkScanResult [] 1 0 0 false).
  refine (proj1
    (legacy_archive_scans_five_frames PickleTools.genops Torch._is_zipfile
       Torch._should_read_directly Torch.get_magic_number Torch.MAGIC_NUMBER
       Torch.zipfile_is_zipfile Torch.scan_no_members Torch.scan_no_members
       Torch.scan_no_members (stream_of legacy_two_infected)
       (mkStream legacy_two_infected 15 true) ".pt" _ _ _ _)
    one (mkStream legacy_two_infected 27 true)
    one (mkStream legacy_two_infected 38 true)
    none (mkStream legacy_two_infected 38 true)
    none (mkStream legacy_two_infected 38 true)
    none (mkStream legacy_two_infected 38 true) _ _ _ _ _).
  - apply (bool_decide_unpack _); vm_compute; exact I.
  - vm_compute; reflexivity.
  - vm_compute; reflexivity.
  - vm_compute; reflexivity.
  - vm_compute; reflexivity.
  - vm_compute; reflexivity.
  - vm_compute; reflexivity.
  - vm_compute; reflexivity.
  - vm_compute; reflexivity.
Defined.

(** ** The scenarios of the specification, on the reference reader *)

(** [GLOBAL "os system"], [STOP]: one dangerous global, one issue, one
    infected file. *)
Example scan_os_system :
  fst <$> scan_pickle_bytes PickleTools.genops (stream_of pickle_os_system) true
  = Some (Ok (mkScanResult [g_os_system] 1 1 1 false)).
Proof. vm_compute; reflexivity. Qed.

(** [PROTO 4], [SHORT_BINUNICODE "collections"], [MEMOIZE],
    [SHORT_BINUNICODE "OrderedDict"], [STACK_GLOBAL], [STOP]: one
    innocuous global. *)
Example scan_ordered_dict :
  fst <$> scan_pickle_bytes PickleTools.genops
            (stream_of ([x80; x04; x8c; x0b] ++ list_byte_of_string "collections"
                        ++ [x94; x8c; x0b] ++ list_byte_of_string "OrderedDict"
                        ++ [x93; x2e])) true
  = Some (Ok (mkScanResult
                [mkGlobal (PStr "collections") (PStr "OrderedDict") Innocuous]
                1 0 0 false)).
Proof. vm_compute; reflexivity. Qed.

(** [GLOBAL "mymodule my_symbol"], [STOP]: suspicious, no issue. *)
Example scan_unlisted_module :
  fst <$> scan_pickle_bytes PickleTools.genops
            (stream_of ([x63] ++ list_byte_of_string "mymodule" ++ [x0a]
                        ++ list_byte_of_string "my_symbol" ++ [x0a; x2e])) true
  = Some (Ok (mkScanResult
                [mkGlobal (PStr "mymodule") (PStr "my_symbol") Suspicious]
                1 0 0 false)).
Proof. vm_compute; reflexivity. Qed.

(** The header pickle of a legacy archive carries the magic number. *)
Example header_pickle_ops :
  fst (fst (PickleTools.genops (stream_of pickle_magic)))
  = [("PROTO", PInt 2); ("LONG1", PInt Torch.MAGIC_NUMBER); ("STOP", PNone)].
Proof. vm_compute; reflexivity. Qed.

(** With multi-pickle mode off the failure of the reader is dropped:
    the empty stream gives the empty result of one scanned file. *)
Example empty_stream_single_pickle_mode :
  scan_pickle_bytes PickleTools.genops (stream_of []) false
  = Some (Ok (mkScanResult [] 1 0 0 false), stream_of []).
Proof. vm_compute; reflexivity. Qed.
(** ** Termination of the loop over the pickles *)

Lemma remaining_length (data : stream) :
  length (remaining data) = (length (buf data) - pos data)%nat.
Proof. unfold remaining. apply length_drop. Qed.

Lemma read1_some (data d : stream) (b : byte) :
  read1 data = (Some b, d) ->
  (pos data < length (buf data))%nat /\ seek_back1 d = Ok data.
Proof.
  unfold read1; intros H.
  destruct (buf data !! pos data) eqn:Hb; simplify_eq.
  split; [eapply lookup_lt_Some, Hb|].
  unfold seek_back1; simpl. destruct data as [bs p m]; simpl.
  do 2 f_equal. lia.
Qed.

(** With a reader that makes progress, the fuel given by
    [_list_globals] is never used up. *)
Lemma list_globals_loop_total genops :
  reader_progress genops ->
  forall fuel data mp memo gl,
    (length (remaining data) < fuel)%nat ->
    exists r, list_globals_loop genops fuel data mp memo gl = Some r.
Proof.
  intros Hprog. induction fuel as [|fuel IH]; intros data mp memo gl Hfuel; [lia|].
  cbn [list_globals_loop].
  destruct (genops data) as [[ops err] d1] eqn:Hg.
  destruct (read1 d1) as [last_byte d2] eqn:Hr.
  destruct (seek_back1 d2) as [d3|e0] eqn:Hseek; [|eauto].
  destruct (extract_globals ops (memo, gl)) as [[memo' gl']|e]; [|eauto].
  destruct (negb mp); [eauto|].
  destruct err as [msg|]; [eauto|].
  destruct last_byte as [b|]; [|eauto].
  apply read1_some in Hr as [Hlt Hback].
  rewrite Hback in Hseek. simplify_eq.
  apply Hprog in Hg as [Hbuf Hpos].
  apply IH. rewrite remaining_length in *. rewrite Hbuf in *. lia.
Qed.

Lemma list_globals_total genops (data : stream) (mp : bool) :
  reader_progress genops -> exists r, _list_globals genops data mp = Some r.
Proof.
  intros Hprog. unfold _list_globals.
  apply list_globals_loop_total; [exact Hprog|lia].
Qed.

Lemma scan_pickle_bytes_total genops (data : stream) (mp : bool) :
  reader_progress genops -> exists r, scan_pickle_bytes genops data mp = Some r.
Proof.
  intros Hprog. unfold scan_pickle_bytes.
  destruct (list_globals_total genops data mp Hprog) as ([[raw|e] d] & ->).
  - eauto.
  - destruct e as [msg [raw|]| | | | | | |]; eauto.
Qed.

(** The reference reader makes progress. *)
Lemma read_exact_length (n : Z) (input : list byte) r rest :
  PickleTools.read_exact n input = (r, rest) -> (length rest <= length input)%nat.
Proof.
  unfold PickleTools.read_exact; intros H.
  destruct (n <=? Z.of_nat (length input)); simplify_eq; simpl; [|lia].
  rewrite length_drop. lia.
Qed.

Lemma read_uint_length (width : nat) (input : list byte) r rest :
  PickleTools.read_uint width input = (r, rest) -> (length rest <= length input)%nat.
Proof.
  unfold PickleTools.read_uint; intros H.
  destruct (PickleTools.read_exact (Z.of_nat width) input) as [[data|] rest'] eqn:He;
    simplify_eq; eapply read_exact_length, He.
Qed.

Lemma readline_length (input : list byte) line rest :
  PickleTools.readline input = (line, rest) -> (length rest <= length input)%nat.
Proof.
  revert line rest. induction input as [|b input IH]; intros line rest H; simpl in H.
  - simplify_eq. simpl. lia.
  - destruct (Byte.eqb b x0a); [simplify_eq; simpl; lia|].
    destruct (PickleTools.readline input) as [line' rest'] eqn:Hl. simplify_eq.
    specialize (IH _ _ eq_refl). simpl. lia.
Qed.

Lemma read_stringnl_noescape_length (input : list byte) r rest :
  PickleTools.read_stringnl_noescape input = (r, rest) ->
  (length rest <= length input)%nat.
Proof.
  unfold PickleTools.read_stringnl_noescape; intros H.
  destruct (PickleTools.readline input) as [data rest'] eqn:Hl.
  apply readline_length in Hl.
  repeat case_match; simplify_eq; exact Hl.
Qed.

Lemma read_arg_length (kind : PickleTools.arg_kind) (input : list byte) r rest :
  PickleTools.read_arg kind input = (r, rest) -> (length rest <= length input)%nat.
Proof.
  destruct kind; simpl; intros H.
  - simplify_eq. lia.
  - eapply read_uint_length, H.
  - unfold PickleTools.read_int4 in H.
    destruct (PickleTools.read_exact 4 input) as [[data|] rest'] eqn:He;
      simplify_eq; eapply read_exact_length, He.
  - unfold PickleTools.read_long1 in H.
    destruct (PickleTools.read_uint 1 input) as [[v|msg] rest1] eqn:Hu.
    + apply read_uint_length in Hu.
      destruct v; simplify_eq; try exact Hu.
      destruct (PickleTools.read_exact z rest1) as [[data|] rest2] eqn:He;
        simplify_eq; apply read_exact_length in He; lia.
    + simplify_eq. eapply read_uint_length, Hu.
  - unfold PickleTools.read_unicodestring in H.
    destruct (PickleTools.read_uint width input) as [[v|msg] rest1] eqn:Hu.
    + apply read_uint_length in Hu.
      destruct v; simplify_eq; try exact Hu.
      destruct (PickleTools.sys_maxsize <? z); [simplify_eq; exact Hu|].
      destruct (PickleTools.read_exact z rest1) as [[data|] rest2] eqn:He;
        apply read_exact_length in He.
      * destruct (forallb _ data); simplify_eq; lia.
      * simplify_eq. lia.
    + simplify_eq. eapply read_uint_length, Hu.
  - unfold PickleTools.read_stringnl_noescape_pair in H.
    destruct (PickleTools.read_stringnl_noescape input) as [[s1|msg] rest1] eqn:H1;
      apply read_stringnl_noescape_length in H1.
    + destruct (PickleTools.read_stringnl_noescape rest1) as [[s2|msg] rest2] eqn:H2;
        apply read_stringnl_noescape_length in H2; simplify_eq; lia.
    + simplify_eq. exact H1.
Qed.

Lemma genops_loop_progress (fuel : nat) :
  forall input acc ops rest,
    PickleTools.genops_loop fuel input acc = (ops, None, rest) ->
    (length rest < length input)%nat.
Proof.
  induction fuel as [|fuel IH]; intros input acc ops rest H; simpl in H;
    [discriminate|].
  destruct input as [|code input]; [discriminate|].
  destruct (PickleTools.opcode_table code) as [[nm kind]|]; [|discriminate].
  destruct (PickleTools.read_arg kind input) as [[arg|msg] input'] eqn:Ha;
    [|discriminate].
  apply read_arg_length in Ha.
  destruct (Byte.eqb code x2e).
  - simplify_eq. simpl. lia.
  - apply IH in H. simpl. lia.
Qed.

Lemma reference_reader_progress : reader_progress PickleTools.genops.
Proof.
  intros data ops d1 H. unfold PickleTools.genops in H.
  destruct (PickleTools.genops_loop _ (remaining data) []) as [[ops' err] rest] eqn:Hl.
  simplify_eq. simpl. split; [reflexivity|].
  apply genops_loop_progress in Hl. rewrite remaining_length in Hl. lia.
Qed.

(** On the reference reader [scan_pickle_bytes] always comes to an end:
    with a result or with an exception. *)
Lemma reference_scan_terminates (data : stream) (mp : bool) :
  exists r, scan_pickle_bytes PickleTools.genops data mp = Some r.
Proof. apply scan_pickle_bytes_total, reference_reader_progress. Qed.

(** ** Further instances *)

(** [classify_follows_rules] at [("functools", "partial")]: the bare
    name itself is classified as the rules say. *)
Lemma classify_follows_rules_witness :
  classify (PStr "functools") (PStr "partial")
  = Ok (Spec.classify "functools" "partial").
Proof.
  apply (classify_follows_rules "functools" "partial").
  intros s Hs. right. intros _.
  vm_compute in Hs. injection Hs as <-. reflexivity.
Defined.

(** [stack_global_refines_spec] on a pickle with a [PROTO] header. *)
Lemma stack_global_refines_spec_witness :
  Spec.stack_global ∅
    [("PROTO", PInt 4); ("SHORT_BINUNICODE", PStr "os");
     ("SHORT_BINUNICODE", PStr "system"); ("STACK_GLOBAL", PNone);
     ("STOP", PNone)] 3
  = Ok [PStr "os"; PStr "system"].
Proof.
  apply (stack_global_refines_spec ∅
    [("PROTO", PInt 4); ("SHORT_BINUNICODE", PStr "os");
     ("SHORT_BINUNICODE", PStr "system"); ("STACK_GLOBAL", PNone);
     ("STOP", PNone)] 3 [PStr "os"; PStr "system"]).
  vm_compute; reflexivity.
Defined.

(** [scan_pickle_bytes_infected_le_scanned] on [GLOBAL "os system"]. *)
Lemma scan_pickle_bytes_infected_le_scanned_witness :
  infected_le_scanned (mkScanResult [g_os_system] 1 1 1 false).
Proof.
  apply (scan_pickle_bytes_infected_le_scanned PickleTools.genops
           (stream_of pickle_os_system) true
           (mkScanResult [g_os_system] 1 1 1 false)
           (mkStream pickle_os_system 11 true)).
  vm_compute; reflexivity.
Defined.
(** ** The 7z signature test, step by step *)

Lemma remaining_read1_some (f f' : stream) (b : byte) :
  read1 f = (Some b, f') ->
  remaining f = b :: remaining f' /\ buf f' = buf f /\ in_memory f' = in_memory f.
Proof.
  unfold read1, remaining; intros H.
  destruct (buf f !! pos f) as [b'|] eqn:Hb; simplify_eq. simpl.
  split; [|split; reflexivity].
  apply drop_S. exact Hb.
Qed.

Lemma remaining_read1_none (f f' : stream) :
  read1 f = (None, f') -> remaining f = [] /\ f' = f.
Proof.
  unfold read1, remaining; intros H.
  destruct (buf f !! pos f) as [b'|] eqn:Hb; simplify_eq.
  split; [|reflexivity].
  apply drop_ge. by apply lookup_ge_None.
Qed.

Lemma read_signature_spec (fuel : nat) :
  forall f read_bytes,
    (length read_bytes < 6)%nat ->
    (6 - length read_bytes <= fuel)%nat ->
    exists f',
      read_signature fuel f read_bytes
      = (read_bytes ++ take (6 - length read_bytes) (remaining f), f')
      /\ buf f' = buf f /\ in_memory f' = in_memory f.
Proof.
  induction fuel as [|fuel IH]; intros f acc Hlt Hfuel; [lia|].
  cbn [read_signature].
  destruct (read1 f) as [[b|] f1] eqn:Hr.
  - apply remaining_read1_some in Hr as (Hrem & Hbuf & Hmem).
    rewrite Hrem.
    destruct (length (acc ++ [b]) =? 6)%nat eqn:Hsix.
    + apply Nat.eqb_eq in Hsix. rewrite length_app in Hsix. simpl in Hsix.
      exists f1. replace (6 - length acc)%nat with 1%nat by lia.
      simpl. rewrite take_0. auto.
    + apply Nat.eqb_neq in Hsix. rewrite length_app in Hsix. simpl in Hsix.
      destruct (IH f1 (acc ++ [b])) as (f' & Heq & Hbuf' & Hmem').
      * rewrite length_app. simpl. lia.
      * rewrite length_app. simpl. lia.
      * exists f'. rewrite Heq, length_app. simpl.
        replace (6 - length acc)%nat with (S (6 - (length acc + 1)))%nat by lia.
        simpl. rewrite <- app_assoc. simpl.
        split; [reflexivity|]. split; congruence.
  - apply remaining_read1_none in Hr as [Hrem ->].
    exists f. rewrite Hrem, take_nil, app_nil_r. auto.
Qed.

(** X5. [_is_7z_file], run statement by statement (read at most six
    bytes one at a time, seek back to the start position, compare),
    answers whether the six bytes at the current position are the 7z
    signature and leaves the stream exactly as it found it; with fewer
    than six bytes left the answer is no. *)
Theorem is_7z_file_restores_position (f : stream) :
  _is_7z_file_steps f = (_is_7z_file f, f)
  /\ ((length (remaining f) < 6)%nat -> _is_7z_file f = false).
Proof.
  split.
  - unfold _is_7z_file_steps, _is_7z_file.
    destruct (read_signature_spec 6 f []) as (f' & Heq & Hbuf & Hmem);
      [simpl; lia|simpl; lia|].
    rewrite Heq. simpl. rewrite Hbuf, Hmem. destruct f; reflexivity.
  - intros Hshort. unfold _is_7z_file.
    apply bool_decide_eq_false_2. intros Heq.
    apply (f_equal length) in Heq. rewrite length_take in Heq.
    cbn [length] in Heq. lia.
Qed.

(** ** Splitting the argument of [GLOBAL] and [INST] *)

Lemma no_space_cons (c : ascii) (s : string) :
  str_contains " " (String c s) = false ->
  Ascii.eqb c " " = false /\ str_contains " " s = false.
Proof.
  intros H.
  assert (Hunf : str_contains " " (String c s)
                 = if String.prefix " " (String c s) then true
                   else str_contains " " s) by reflexivity.
  assert (Hp : String.prefix " " (String c s)
               = if ascii_dec " "%char c then true else false).
  { cbn [String.prefix]. destruct (ascii_dec " "%char c); [|reflexivity].
    destruct s; reflexivity. }
  rewrite Hunf, Hp in H.
  destruct (ascii_dec " "%char c) as [<-|Hne]; [discriminate|].
  split; [|exact H]. apply Ascii.eqb_neq. congruence.
Qed.

Lemma split_space_once_join (m n : string) :
  str_contains " " m = false ->
  split_space_once (m +:+ " " +:+ n) = [m; n].
Proof.
  induction m as [|c m IH]; intros Hm.
  - reflexivity.
  - apply no_space_cons in Hm as [Hc Hm].
    change (String c m +:+ " " +:+ n) with (String c (m +:+ " " +:+ n)).
    assert (Hunf : forall rest,
               split_space_once (String c rest)
               = if Ascii.eqb c " " then [EmptyString; rest]
                 else match split_space_once rest with
                      | hd :: tl => String c hd :: tl
                      | [] => [String c EmptyString]
                      end) by reflexivity.
    rewrite Hunf, Hc, (IH Hm). reflexivity.
Qed.

Lemma split_space_once_none (s : string) :
  str_contains " " s = false -> split_space_once s = [s].
Proof.
  induction s as [|c s IH]; intros Hs; [reflexivity|].
  apply no_space_cons in Hs as [Hc Hs].
  assert (Hunf : split_space_once (String c s)
                 = if Ascii.eqb c " " then [EmptyString; s]
                   else match split_space_once s with
                        | hd :: tl => String c hd :: tl
                        | [] => [String c EmptyString]
                        end) by reflexivity.
  rewrite Hunf, Hc, (IH Hs). reflexivity.
Qed.

(** X6. Splitting at the first space undoes the reader's
    ["%s %s" % (module, name)] when the module has no space: the pair is
    [(module, name)], whatever the name; an argument without any space
    gives a tuple of one component. *)
Theorem split_recovers_module_and_name :
  (forall m n : string,
      str_contains " " m = false ->
      split_space_once (m +:+ " " +:+ n) = [m; n])
  /\ (forall s : string,
        str_contains " " s = false -> split_space_once s = [s]).
Proof. split; [apply split_space_once_join|apply split_space_once_none]. Qed.

(** ** What the extraction keeps *)

Lemma extract_op_mono ops memo gl (n : nat) memo' gl' :
  extract_op ops (memo, gl) n = Ok (memo', gl') -> gl ⊆ gl'.
Proof.
  unfold extract_op, bind; intros H.
  repeat case_match; simplify_eq; set_solver.
Qed.

Lemma extract_ops_mono ops (indices : list nat) :
  forall memo gl memo' gl',
    extract_ops ops indices (memo, gl) = Ok (memo', gl') -> gl ⊆ gl'.
Proof.
  induction indices as [|n rest IH]; intros memo gl memo' gl' H;
    cbn [extract_ops] in H.
  - by simplify_eq.
  - destruct (extract_op ops (memo, gl) n) as [[memo1 gl1]|] eqn:Hop;
      cbn [bind] in H; [|discriminate].
    apply extract_op_mono in Hop. apply IH in H. set_solver.
Qed.

Lemma extract_op_global ops memo gl (n : nat) nm s memo' gl' :
  ops !! n = Some (nm, PStr s) ->
  nm = "GLOBAL" \/ nm = "INST" ->
  extract_op ops (memo, gl) n = Ok (memo', gl') ->
  (PStr <$> split_space_once s) ∈ gl'.
Proof.
  intros Hop Hnm H. unfold extract_op in H. rewrite Hop in H.
  destruct Hnm as [-> | ->].
  - change (String.eqb "GLOBAL" "MEMOIZE") with false in H.
    change (name_in "GLOBAL" ["PUT"; "BINPUT"; "LONG_BINPUT"]) with false in H.
    change (name_in "GLOBAL" ["GLOBAL"; "INST"]) with true in H.
    cbn [andb] in H. simplify_eq. set_solver.
  - change (String.eqb "INST" "MEMOIZE") with false in H.
    change (name_in "INST" ["PUT"; "BINPUT"; "LONG_BINPUT"]) with false in H.
    change (name_in "INST" ["GLOBAL"; "INST"]) with true in H.
    cbn [andb] in H. simplify_eq. set_solver.
Qed.

Lemma extract_globals_keeps (ops : list op)
    (memo memo' : gmap pyval pyval) (gl gl' : gset (list pyval)) :
  extract_globals ops (memo, gl) = Ok (memo', gl') ->
  gl ⊆ gl'
  /\ forall (i : nat) nm s,
       ops !! i = Some (nm, PStr s) ->
       nm = "GLOBAL" \/ nm = "INST" ->
       (PStr <$> split_space_once s) ∈ gl'.
Proof.
  intros H. split; [eapply extract_ops_mono, H|].
  intros i nm s Hop Hnm.
  assert (Hi : (i < length ops)%nat) by (eapply lookup_lt_Some, Hop).
  unfold extract_globals in H.
  rewrite (seq_split_at i (length ops) Hi), extract_ops_app in H.
  destruct (extract_ops ops (seq 0 i) (memo, gl)) as [[memo1 gl1]|];
    cbn [bind] in H; [|discriminate].
  cbn [extract_ops] in H.
  destruct (extract_op ops (memo1, gl1) i) as [[memo2 gl2]|] eqn:Hstep;
    cbn [bind] in H; [|discriminate].
  pose proof (extract_op_global ops memo1 gl1 i nm s memo2 gl2 Hop Hnm Hstep).
  apply extract_ops_mono in H. set_solver.
Qed.

(** X7. When the extraction over a list of operations returns, the set
    it returns holds everything that was in the set before, and the
    split argument of every [GLOBAL] and [INST] operation of the list:
    no import written with these opcodes is dropped. *)
Theorem extraction_keeps_every_global (ops : list op)
    (memo memo' : gmap pyval pyval) (gl gl' : gset (list pyval)) :
  extract_globals ops (memo, gl) = Ok (memo', gl') ->
  gl ⊆ gl'
  /\ forall (i : nat) nm s,
       ops !! i = Some (nm, PStr s) ->
       nm = "GLOBAL" \/ nm = "INST" ->
       (PStr <$> split_space_once s) ∈ gl'.
Proof. apply extract_globals_keeps. Qed.

(** X7, witness: two [GLOBAL]s and a [STOP]. *)
Lemma extraction_keeps_every_global_witness :
  [PStr "os"; PStr "system"]
  ∈ ({[ [PStr "os"; PStr "system"]; [PStr "builtins"; PStr "eval"] ]}
       : gset (list pyval)).
Proof.
  refine (proj2 (extraction_keeps_every_global
            [("GLOBAL", PStr "os system"); ("GLOBAL", PStr "builtins eval");
             ("STOP", PNone)]
            ∅ ∅ ∅ _ _) 0%nat "GLOBAL" "os system" eq_refl (or_introl eq_refl)).
  apply (bool_decide_unpack _). vm_compute. exact I.
Defined.

(** ** What the loop over the pickles keeps *)

Lemma list_globals_loop_mono genops (fuel : nat) :
  forall data mp memo gl,
    (forall gl' d,
        list_globals_loop genops fuel data mp memo gl = Some (Ok gl', d) ->
        gl ⊆ gl')
    /\ (forall msg e_globals d,
          list_globals_loop genops fuel data mp memo gl
          = Some (Raise (GenOpsError msg e_globals), d) ->
          forall rg, rg ∈ gl -> exists found, e_globals = Some found /\ rg ∈ found).
Proof.
  induction fuel as [|fuel IHfuel]; intros data mp memo gl; [split; discriminate|].
  cbn [list_globals_loop].
  destruct (genops data) as [[ops err] d1].
  destruct (read1 d1) as [last_byte d2].
  destruct (seek_back1 d2) as [d3|e0] eqn:Hseek.
  - destruct (extract_globals ops (memo, gl)) as [[memo1 gl1]|e1] eqn:Hex.
    + pose proof (extract_ops_mono _ _ _ _ _ _ Hex) as Hsub.
      destruct mp; cbn [negb].
      * destruct err as [msg0|].
        -- split; [discriminate|].
           intros msg e_globals d H rg Hrg. simplify_eq.
           assert (Hin : rg ∈ gl1) by set_solver.
           destruct (0 <? size gl1)%nat eqn:Hsize; [eauto|].
           apply Nat.ltb_ge in Hsize.
           assert (size gl1 = 0%nat) as Hz by lia.
           apply size_empty_inv in Hz. set_solver.
        -- destruct last_byte as [b|].
           ++ destruct (IHfuel d3 true memo1 gl1) as [IHok IHerr].
              split.
              ** intros gl' d H. specialize (IHok gl' d H). set_solver.
              ** intros msg e_globals d H rg Hrg.
                 apply (IHerr msg e_globals d H rg). set_solver.
           ++ split; [intros gl' d H; by simplify_eq|discriminate].
      * split; [intros gl' d H; by simplify_eq|discriminate].
    + split; intros; simplify_eq.
      apply extract_ops_plain in Hex. destruct Hex.
  - split; intros; simplify_eq.
    apply seek_back1_plain in Hseek. destruct Hseek.
Qed.

Lemma list_globals_first genops data mp ops err d1 :
  genops data = (ops, err, d1) ->
  (forall gl' d,
      _list_globals genops data mp = Some (Ok gl', d) ->
      exists memo gl, extract_globals ops (∅, ∅) = Ok (memo, gl) /\ gl ⊆ gl')
  /\ (forall msg e_globals d,
        _list_globals genops data mp
        = Some (Raise (GenOpsError msg e_globals), d) ->
        exists memo gl,
          extract_globals ops (∅, ∅) = Ok (memo, gl)
          /\ forall rg, rg ∈ gl ->
               exists found, e_globals = Some found /\ rg ∈ found).
Proof.
  intros Hg. unfold _list_globals.
  pose proof (list_globals_loop_mono genops (S (length (remaining data)))
                data mp ∅ ∅) as _.
  cbn [list_globals_loop]. rewrite Hg.
  destruct (read1 d1) as [last_byte d2].
  destruct (seek_back1 d2) as [d3|e0] eqn:Hseek.
  - destruct (extract_globals ops (∅, ∅)) as [[memo1 gl1]|e1] eqn:Hex.
    + destruct mp; cbn [negb].
      * destruct err as [msg0|].
        -- split; [discriminate|].
           intros msg e_globals d H. simplify_eq.
           exists memo1, gl1. split; [reflexivity|].
           intros rg Hrg.
           destruct (0 <? size gl1)%nat eqn:Hsize; [eauto|].
           apply Nat.ltb_ge in Hsize.
           assert (size gl1 = 0%nat) as Hz by lia.
           apply size_empty_inv in Hz. set_solver.
        -- destruct last_byte as [b|].
           ++ destruct (list_globals_loop_mono genops (length (remaining data))
                          d3 true memo1 gl1) as [Hok Herr].
              split.
              ** intros gl' d H. exists memo1, gl1. eauto.
              ** intros msg e_globals d H. exists memo1, gl1. eauto.
           ++ split; [|discriminate].
              intros gl' d H. simplify_eq. exists memo1, gl'. auto.
      * split; [|discriminate].
        intros gl' d H. simplify_eq. exists memo1, gl'. auto.
    + split; intros; simplify_eq.
      apply extract_ops_plain in Hex. destruct Hex.
  - split; intros; simplify_eq.
    apply seek_back1_plain in Hseek. destruct Hseek.
Qed.

(** ** What a result says about its raw globals *)

Lemma build_reports (raw : gset (list pyval)) (err : bool) (S : ScanResult)
    (m n : pyval) :
  _build_scan_result_from_raw_globals raw err = Ok S ->
  [m; n] ∈ raw ->
  exists level, mkGlobal m n level ∈ globals S.
Proof.
  intros HS Hin. apply build_pairs in HS.
  assert (Hel : [m; n] ∈ take 2 <$> elements raw).
  { apply list_elem_of_fmap. exists [m; n]. split; [reflexivity|].
    by apply elem_of_elements. }
  rewrite <- HS in Hel. apply list_elem_of_fmap in Hel as (g & Hg & Hgin).
  destruct g as [gm gn level]. simpl in Hg. simplify_eq.
  exists level. exact Hgin.
Qed.

(** X8. Whatever result [scan_pickle_bytes] returns, in either mode,
    it reports every [GLOBAL] and [INST] of the first pickle of the
    stream: for an argument ["module name"] whose module has no space
    there is a [Global] with that module and that name, even when the
    reader failed later in the pickle or other pickles follow. *)
Theorem first_pickle_globals_are_reported genops (data d1 d : stream)
    (mp : bool) (ops : list op) (err : option string) (S : ScanResult)
    (i : nat) (nm m n : string) :
  genops data = (ops, err, d1) ->
  ops !! i = Some (nm, PStr (m +:+ " " +:+ n)) ->
  nm = "GLOBAL" \/ nm = "INST" ->
  str_contains " " m = false ->
  scan_pickle_bytes genops data mp = Some (Ok S, d) ->
  exists level, mkGlobal (PStr m) (PStr n) level ∈ globals S.
Proof.
  intros Hg Hop Hnm Hm Hscan.
  destruct (list_globals_first genops data mp ops err d1 Hg) as [Hok Herr].
  assert (Hpair : forall memo gl,
             extract_globals ops (∅, ∅) = Ok (memo, gl) ->
             [PStr m; PStr n] ∈ gl).
  { intros memo gl Hex.
    destruct (extract_globals_keeps ops ∅ memo ∅ gl Hex) as [_ Hall].
    specialize (Hall i nm _ Hop Hnm).
    by rewrite (split_space_once_join m n Hm) in Hall. }
  unfold scan_pickle_bytes in Hscan.
  destruct (_list_globals genops data mp) as [[[raw|e] d']|] eqn:Hl;
    [| |discriminate].
  - simplify_eq.
    destruct (Hok raw d eq_refl) as (memo & gl & Hex & Hsub).
    eapply build_reports; [eassumption|]. apply Hsub, (Hpair memo gl Hex).
  - destruct e as [msg e_globals| | | | | | |]; try discriminate.
    destruct (Herr msg e_globals d' eq_refl) as (memo & gl & Hex & Hfound).
    destruct (Hfound _ (Hpair memo gl Hex)) as (found & -> & Hin).
    simplify_eq. eapply build_reports; eassumption.
Qed.

(** X8, witness: the [GLOBAL] of [pickle_os_system], at index 0. *)
Lemma first_pickle_globals_are_reported_witness :
  exists level, mkGlobal (PStr "os") (PStr "system") level ∈ [g_os_system].
Proof.
  refine (first_pickle_globals_are_reported PickleTools.genops
            (stream_of pickle_os_system) (mkStream pickle_os_system 12 true)
            (mkStream pickle_os_system 11 true) true
            [("GLOBAL", PStr "os system"); ("STOP", PNone)] None
            (mkScanResult [g_os_system] 1 1 1 false)
            0%nat "GLOBAL" "os" "system" _ eq_refl (or_introl eq_refl) eq_refl _).
  - vm_compute; reflexivity.
  - vm_compute; reflexivity.
Defined.

Lemma dangerous_count_pos (gs : list Global) :
  0 < dangerous_count gs <-> exists g, g ∈ gs /\ safety g = Dangerous.
Proof.
  unfold dangerous_count. split.
  - intros Hpos.
    destruct (filter (fun g => safety g = Dangerous) gs) as [|g tl] eqn:Hf;
      [simpl in Hpos; lia|].
    assert (Hin : g ∈ filter (fun g => safety g = Dangerous) gs)
      by (rewrite Hf; left).
    apply list_elem_of_filter in Hin as [Hd Hin]. eauto.
  - intros (g & Hin & Hd).
    assert (Hf : g ∈ filter (fun g => safety g = Dangerous) gs)
      by (apply list_elem_of_filter; auto).
    destruct (filter (fun g => safety g = Dangerous) gs);
      [by apply elem_of_nil in Hf|simpl; lia].
Qed.

(** X9. A result built from raw globals has one [Global] per raw
    global, with the first two components of the tuple as module and
    name, in the order of iteration; [infected_files] is 1 exactly when
    one of them is [Dangerous], and 0 otherwise. *)
Theorem built_result_reflects_raw_globals (raw : gset (list pyval))
    (err : bool) (S : ScanResult) :
  _build_scan_result_from_raw_globals raw err = Ok S ->
  (fun g => [module g; name g]) <$> globals S = take 2 <$> elements raw
  /\ length (globals S) = size raw
  /\ (infected_files S = 1 <-> exists g, g ∈ globals S /\ safety g = Dangerous)
  /\ (infected_files S = 0 <-> forall g, g ∈ globals S -> safety g <> Dangerous).
Proof.
  intros H.
  pose proof (build_pairs raw err S H) as Hpairs.
  pose proof (build_issues_consistent raw err S H) as Hcount.
  pose proof (build_counters raw err S H) as (_ & _ & Hinf).
  unfold issues_consistent in Hcount.
  pose proof (dangerous_count_pos (globals S)) as Hpos.
  rewrite Hcount in Hpos.
  split; [exact Hpairs|]. split.
  - apply (f_equal length) in Hpairs. rewrite !length_fmap in Hpairs. exact Hpairs.
  - rewrite Hinf. destruct (0 <? issues_count S) eqn:Hlt.
    + apply Z.ltb_lt in Hlt. apply Hpos in Hlt.
      split; split; try done.
      intros Hnone. destruct Hlt as (g & Hin & Hd). by apply Hnone in Hin.
    + apply Z.ltb_ge in Hlt.
      assert (Hno : forall g, g ∈ globals S -> safety g <> Dangerous).
      { intros g Hin Hd. assert (0 < issues_count S) by (apply Hpos; eauto). lia. }
      split; split; try done.
      intros (g & Hin & Hd). by apply Hno in Hin.
Qed.

(** X9, witness: the raw globals of [pickle_os_system]. *)
Lemma built_result_reflects_raw_globals_witness :
  (fun g => [module g; name g]) <$> [g_os_system]
  = take 2 <$> elements ({[ [PStr "os"; PStr "system"] ]} : gset (list pyval)).
Proof.
  refine (proj1 (built_result_reflects_raw_globals
                   {[ [PStr "os"; PStr "system"] ]} false
                   (mkScanResult [g_os_system] 1 1 1 false) _)).
  vm_compute; reflexivity.
Defined.

(** ** The allow list and the placeholder *)

Lemma tables_disjoint (m : string) (flt : pyfilter) :
  _safe_globals !! m = Some flt -> _unsafe_globals !! m = None.
Proof.
  assert (H : map_Forall (fun k _ => _unsafe_globals !! k = None) _safe_globals).
  { apply (bool_decide_unpack _). vm_compute. exact I. }
  intros Hm. exact (H m flt Hm).
Qed.

(** X10. A pair is classified [Innocuous] only if both components are
    strings without the substring ["unknown"], the module is a key of
    [_safe_globals], the name is a member of its set, and the module is
    no key of [_unsafe_globals]; such a pair never counts as an issue. *)
Theorem innocuous_only_from_allow_list (m n : pyval) (issue : bool) :
  classify m n = Ok (Innocuous, issue) ->
  issue = false
  /\ exists ms ns names,
       m = PStr ms /\ n = PStr ns
       /\ _safe_globals !! ms = Some (FSet names) /\ ns ∈ names
       /\ _unsafe_globals !! ms = None
       /\ str_contains "unknown" ms = false
       /\ str_contains "unknown" ns = false.
Proof.
  unfold classify, bind, unknown_in, table_get. cbv zeta. intros H.
  destruct m as [| |ms|]; try discriminate.
  destruct (str_contains "unknown" ms) eqn:Hum; [discriminate|].
  destruct n as [| |ns|]; try discriminate.
  destruct (str_contains "unknown" ns) eqn:Hun; [discriminate|].
  destruct (match _unsafe_globals !! ms with
            | Some flt => filter_is_star flt || filter_contains ns flt
            | None => false
            end); [discriminate|].
  destruct (_safe_globals !! ms) as [flt|] eqn:Hsafe; [|discriminate].
  destruct (safe_filters_are_sets ms flt Hsafe) as [names ->].
  cbn [filter_is_star filter_contains orb] in H.
  destruct (bool_decide (ns ∈ names)) eqn:Hin; [|discriminate].
  apply bool_decide_eq_true_1 in Hin. simplify_eq.
  split; [reflexivity|].
  exists ms, ns, names. repeat split; try assumption.
  eapply tables_disjoint, Hsafe.
Qed.

(** X10, witness: [collections.OrderedDict]. *)
Lemma innocuous_only_from_allow_list_witness :
  false = false
  /\ exists ms ns names,
       PStr "collections" = PStr ms /\ PStr "OrderedDict" = PStr ns
       /\ _safe_globals !! ms = Some (FSet names) /\ ns ∈ names
       /\ _unsafe_globals !! ms = None
       /\ str_contains "unknown" ms = false
       /\ str_contains "unknown" ns = false.
Proof.
  apply (innocuous_only_from_allow_list (PStr "collections") (PStr "OrderedDict")).
  vm_compute; reflexivity.
Defined.

Lemma classify_unknown_module (m : string) (n : pyval) :
  str_contains "unknown" m = true -> classify (PStr m) n = Ok (Dangerous, true).
Proof.
  intros Hm. unfold classify, bind, unknown_in. cbv zeta. rewrite Hm. reflexivity.
Qed.

Lemma classify_unknown_name (m n : string) :
  str_contains "unknown" n = true ->
  classify (PStr m) (PStr n) = Ok (Dangerous, true).
Proof.
  intros Hn. unfold classify, bind, unknown_in. cbv zeta. rewrite Hn.
  destruct (str_contains "unknown" m); reflexivity.
Qed.

(** The backward scan at a [STACK_GLOBAL] for two operands that sit
    right before it, after at least one earlier operation. *)
Lemma collect_two_operands memo ops (k : nat) nm1 arg1 nm2 arg2 v1 v2 :
  (1 <= k)%nat ->
  ops !! k = Some (nm1, arg1) ->
  ops !! S k = Some (nm2, arg2) ->
  name_in nm1 ["MEMOIZE"; "PUT"; "BINPUT"; "LONG_BINPUT"] = false ->
  name_in nm2 ["MEMOIZE"; "PUT"; "BINPUT"; "LONG_BINPUT"] = false ->
  name_in nm1 ["GET"; "BINGET"; "LONG_BINGET"] = false ->
  name_in nm2 ["GET"; "BINGET"; "LONG_BINGET"] = false ->
  v1 = (if negb (name_in nm1 ["SHORT_BINUNICODE"; "UNICODE"; "BINUNICODE";
                              "BINUNICODE8"])
        then PStr "unknown" else arg1) ->
  v2 = (if negb (name_in nm2 ["SHORT_BINUNICODE"; "UNICODE"; "BINUNICODE";
                              "BINUNICODE8"])
        then PStr "unknown" else arg2) ->
  stack_global memo ops (S (S k)) = Ok [v1; v2].
Proof.
  intros Hk H1 H2 Hm1 Hm2 Hg1 Hg2 -> ->.
  unfold stack_global.
  replace (S (S k) - 1)%nat with (S (S (k - 1))) by lia.
  cbn [seq collect_values].
  replace (S (S k) - 1)%nat with (S k) by lia.
  replace (S (S k) - 2)%nat with k by lia.
  rewrite H2, Hm2, Hg2.
  destruct (negb (name_in nm2 _)); cbn [bind app length Nat.eqb];
    rewrite H1, Hm1, Hg1;
    destruct (negb (name_in nm1 _)); reflexivity.
Qed.

(** X11. A [STACK_GLOBAL] whose two operands are the two operations
    right before it (and not the first of the list), neither of them a
    memo or a get opcode: an operand, the module's or the name's, that
    is no string opcode is replaced by ["unknown"], and as soon as one
    of the two is replaced the pair is classified [Dangerous] and
    counted as an issue (the argument of a string opcode in the module
    position being a string).  A pair with ["unknown"] in the module is
    [Dangerous] whatever the name is; so is a pair of strings with
    ["unknown"] in the name. *)
Theorem non_string_operand_is_dangerous :
  (forall memo ops (k : nat) nm1 arg1 nm2 arg2,
      (1 <= k)%nat ->
      ops !! k = Some (nm1, arg1) ->
      ops !! S k = Some (nm2, arg2) ->
      name_in nm1 ["MEMOIZE"; "PUT"; "BINPUT"; "LONG_BINPUT"] = false ->
      name_in nm2 ["MEMOIZE"; "PUT"; "BINPUT"; "LONG_BINPUT"] = false ->
      name_in nm1 ["GET"; "BINGET"; "LONG_BINGET"] = false ->
      name_in nm2 ["GET"; "BINGET"; "LONG_BINGET"] = false ->
      name_in nm1 ["SHORT_BINUNICODE"; "UNICODE"; "BINUNICODE"; "BINUNICODE8"]
        = false
      \/ name_in nm2 ["SHORT_BINUNICODE"; "UNICODE"; "BINUNICODE"; "BINUNICODE8"]
         = false ->
      (name_in nm1 ["SHORT_BINUNICODE"; "UNICODE"; "BINUNICODE"; "BINUNICODE8"]
         = true -> exists m : string, arg1 = PStr m) ->
      let v1 :=
        if name_in nm1 ["SHORT_BINUNICODE"; "UNICODE"; "BINUNICODE";
                        "BINUNICODE8"]
        then arg1 else PStr "unknown" in
      let v2 :=
        if name_in nm2 ["SHORT_BINUNICODE"; "UNICODE"; "BINUNICODE";
                        "BINUNICODE8"]
        then arg2 else PStr "unknown" in
      stack_global memo ops (S (S k)) = Ok [v1; v2]
      /\ classify v1 v2 = Ok (Dangerous, true))
  /\ (forall (m : string) (n : pyval),
        str_contains "unknown" m = true ->
        classify (PStr m) n = Ok (Dangerous, true))
  /\ (forall m n : string,
        str_contains "unknown" n = true ->
        classify (PStr m) (PStr n) = Ok (Dangerous, true)).
Proof.
  split; [|split; [apply classify_unknown_module|apply classify_unknown_name]].
  intros memo ops k nm1 arg1 nm2 arg2 Hk H1 H2 Hm1 Hm2 Hg1 Hg2 Hnon Hstr v1 v2.
  split.
  - apply (collect_two_operands memo ops k nm1 arg1 nm2 arg2);
      try assumption; subst v1 v2.
    + by destruct (name_in nm1 ["SHORT_BINUNICODE"; "UNICODE"; "BINUNICODE";
                                "BINUNICODE8"]).
    + by destruct (name_in nm2 ["SHORT_BINUNICODE"; "UNICODE"; "BINUNICODE";
                                "BINUNICODE8"]).
  - subst v1 v2.
    destruct (name_in nm1 ["SHORT_BINUNICODE"; "UNICODE"; "BINUNICODE";
                           "BINUNICODE8"]) eqn:Hs1.
    + destruct (Hstr eq_refl) as [m ->].
      destruct Hnon as [Hnon|Hnon]; [discriminate|]. rewrite Hnon.
      by apply classify_unknown_name.
    + by apply classify_unknown_module.
Qed.

(** X11, witness: the name operand is a [BININT1]. *)
Lemma non_string_operand_is_dangerous_witness :
  stack_global ∅
    [("PROTO", PInt 4); ("SHORT_BINUNICODE", PStr "os"); ("BININT1", PInt 5);
     ("STACK_GLOBAL", PNone); ("STOP", PNone)] 3
  = Ok [PStr "os"; PStr "unknown"]
  /\ classify (PStr "os") (PStr "unknown") = Ok (Dangerous, true).
Proof.
  refine (proj1 non_string_operand_is_dangerous ∅
            [("PROTO", PInt 4); ("SHORT_BINUNICODE", PStr "os");
             ("BININT1", PInt 5); ("STACK_GLOBAL", PNone); ("STOP", PNone)]
            1%nat "SHORT_BINUNICODE" (PStr "os") "BININT1" (PInt 5)
            _ eq_refl eq_refl eq_refl eq_refl eq_refl eq_refl _ _).
  - lia.
  - right. reflexivity.
  - intros _. by exists "os".
Defined.

(** X12. The encoding that the pickler writes for a global in protocol
    4, two string opcodes each followed by [MEMOIZE] and then
    [STACK_GLOBAL], is recovered as [(module, name)] whatever the memo
    table holds, as long as the first string is not the first operation
    of the pickle; so is the encoding without the [MEMOIZE]s. *)
Theorem pickled_global_is_recovered (memo : gmap pyval pyval) (ops : list op)
    (k : nat) (m n a1 a2 : pyval) :
  (1 <= k)%nat ->
  (ops !! k = Some ("SHORT_BINUNICODE", m) ->
   ops !! (k + 1)%nat = Some ("MEMOIZE", a1) ->
   ops !! (k + 2)%nat = Some ("SHORT_BINUNICODE", n) ->
   ops !! (k + 3)%nat = Some ("MEMOIZE", a2) ->
   stack_global memo ops (k + 4) = Ok [m; n])
  /\ (ops !! k = Some ("SHORT_BINUNICODE", m) ->
      ops !! (k + 1)%nat = Some ("SHORT_BINUNICODE", n) ->
      stack_global memo ops (k + 2) = Ok [m; n]).
Proof.
  intros Hk. split.
  - intros H0 H1 H2 H3. unfold stack_global.
    replace (k + 4 - 1)%nat with (S (S (S (S (k - 1))))) by lia.
    cbn [seq collect_values].
    replace (k + 4 - 1)%nat with (k + 3)%nat by lia.
    replace (k + 4 - 2)%nat with (k + 2)%nat by lia.
    replace (k + 4 - 3)%nat with (k + 1)%nat by lia.
    replace (k + 4 - 4)%nat with k by lia.
    rewrite H3, H2, H1, H0. reflexivity.
  - intros H0 H1.
    replace (k + 2)%nat with (S (S k)) by lia.
    replace (k + 1)%nat with (S k) in H1 by lia.
    apply (collect_two_operands memo ops k "SHORT_BINUNICODE" m
             "SHORT_BINUNICODE" n); try assumption; reflexivity.
Qed.

(** X12, witness: [os.system] in protocol 4, the [STACK_GLOBAL] at
    index 5. *)
Lemma pickled_global_is_recovered_witness :
  stack_global ∅ ops_protocol4 5 = Ok [PStr "os"; PStr "system"].
Proof.
  refine (proj1 (pickled_global_is_recovered ∅ ops_protocol4 1
                   (PStr "os") (PStr "system") PNone PNone _) _ _ _ _);
    [lia | reflexivity ..].
Defined.

(** ** Single-pickle mode and the legacy path *)

Lemma single_mode_returns genops (data : stream) :
  exists r d,
    scan_pickle_bytes genops data false = Some (r, d)
    /\ match r with
       | Ok sr => scan_err sr = false /\ scanned_files sr = 1
       | Raise e => plain_exn e
       end.
Proof.
  unfold scan_pickle_bytes, _list_globals. cbn [list_globals_loop].
  destruct (genops data) as [[ops err] d1].
  destruct (read1 d1) as [last d2].
  destruct (seek_back1 d2) as [d3|e] eqn:Hseek.
  - destruct (extract_globals ops (∅, ∅)) as [[memo gl]|e] eqn:Hext.
    + cbn [negb].
      destruct (_build_scan_result_from_raw_globals gl false) as [S|e] eqn:Hb.
      * exists (Ok S), d3. split; [reflexivity|].
        destruct (build_counters gl false S Hb) as (Hs & He & _). by split.
      * exists (Raise e), d3. split; [reflexivity|]. eapply build_plain, Hb.
    + pose proof (extract_ops_plain _ _ _ _ Hext) as Hp.
      exists (Raise e), d3. split; [|exact Hp].
      destruct e; try reflexivity; destruct Hp.
  - pose proof (seek_back1_plain _ _ Hseek) as Hp.
    exists (Raise e), d2. split; [|exact Hp].
    destruct e; try reflexivity; destruct Hp.
Qed.

(** X13. With [multiple_pickles=False], [scan_pickle_bytes] returns
    after one turn of the loop whatever the reader does: it gives a
    result with [scanned_files = 1] and [scan_err] unset, also when the
    reader failed, or it raises an exception other than [GenOpsError]. *)
Theorem single_pickle_mode_drops_reader_errors
    (genops : stream -> list op * option string * stream) (data : stream) :
  exists r d,
    scan_pickle_bytes genops data false = Some (r, d)
    /\ match r with
       | Ok sr => scan_err sr = false /\ scanned_files sr = 1
       | Raise e => plain_exn e
       end.
Proof. apply single_mode_returns. Qed.

Lemma scan_frames_scan_err genops (count : nat) :
  forall data acc R d,
    scan_frames genops count data acc = Some (Ok R, d) ->
    scan_err R = scan_err acc.
Proof.
  induction count as [|count IH]; intros data acc R d H.
  - cbn [scan_frames] in H. by simplify_eq.
  - apply scan_frames_step in H as (r & d1 & Hr & Hrest).
    apply IH in Hrest. rewrite Hrest.
    destruct (single_mode_returns genops data) as (r' & d' & Hr' & Hprop).
    rewrite Hr in Hr'. simplify_eq. destruct Hprop as [Herr _].
    unfold merge. cbn [scan_err]. rewrite Herr. apply orb_false_r.
Qed.

Lemma scan_frames_returns genops (count : nat) :
  forall data acc, exists r d, scan_frames genops count data acc = Some (r, d).
Proof.
  induction count as [|count IH]; intros data acc.
  - eexists _, _. reflexivity.
  - cbn [scan_frames].
    destruct (single_mode_returns genops data) as (r & d & Hr & _).
    rewrite Hr. destruct r as [S|e].
    + apply IH.
    + eexists _, _. reflexivity.
Qed.

Section LegacyPath.

Variable genops : stream -> list op * option string * stream.
Variable _is_zipfile : stream -> bool.
Variable _should_read_directly : stream -> bool.
Variable get_magic_number : stream -> option Z * stream.
Variable MAGIC_NUMBER : Z.
Variable zipfile_is_zipfile : stream -> bool.
Variable scan_zip_bytes : stream -> outcome ScanResult.
Variable scan_7z_bytes : stream -> outcome ScanResult.
Variable scan_numpy : stream -> outcome ScanResult.

Local Abbreviation scan_bytes' :=
  (scan_bytes genops _is_zipfile _should_read_directly get_magic_number
     MAGIC_NUMBER zipfile_is_zipfile scan_zip_bytes scan_7z_bytes scan_numpy).

(** X14. On the legacy tensor-archive path [scan_bytes] always comes
    back, and a result it returns has [scan_err] set exactly when the
    framing magic is not [MAGIC_NUMBER], in which case the result is
    [ScanResult([], scan_err=True)]: with a valid magic no failure of
    the reader in the five frames is reported. *)
Theorem legacy_scan_err_iff_invalid_magic (data : stream) (ext : string) :
  ext ∈ _pytorch_file_extensions ->
  _is_zipfile data = false ->
  _is_7z_file data = false ->
  let magic :=
    fst (get_magic_number
           (if _should_read_directly data && (pos data =? 0)%nat
            then seek_start data else data)) in
  (exists r d, scan_bytes' data (Some ext) = Some (r, d))
  /\ forall S d,
       scan_bytes' data (Some ext) = Some (Ok S, d) ->
       (scan_err S = true <-> magic <> Some MAGIC_NUMBER)
       /\ (magic <> Some MAGIC_NUMBER -> S = mkScanResult [] 0 0 0 true)
       /\ (magic = Some MAGIC_NUMBER -> scanned_files S = 1).
Proof.
  intros Hext Hzip H7z magic. subst magic.
  unfold scan_bytes, scan_pytorch.
  rewrite (bool_decide_eq_true_2 _ Hext), Hzip, H7z.
  destruct (get_magic_number _) as [magic d0]. cbn [fst].
  destruct (bool_decide (magic = Some MAGIC_NUMBER)) eqn:Hm.
  - apply bool_decide_eq_true_1 in Hm.
    destruct (scan_frames_returns genops 5 d0 (mkScanResult [] 0 0 0 false))
      as (r & d & Hr).
    rewrite Hr. split.
    + destruct r as [R|e]; [eexists _, _; reflexivity|].
      destruct e; eexists _, _; reflexivity.
    + intros S d' H. destruct r as [R|e].
      * simplify_eq. apply scan_frames_scan_err in Hr.
        cbn [set_scanned_files scan_err scanned_files] in *.
        rewrite Hr. split; [|split]; [split| |]; try done.
      * apply scan_frames_plain in Hr. destruct e; try discriminate; destruct Hr.
  - apply bool_decide_eq_false_1 in Hm. split.
    + eexists _, _; reflexivity.
    + intros S d' H. simplify_eq. cbn [scan_err]. split; [|split]; try done.
Qed.

End LegacyPath.

(** X14, witness: a file [.pt] with the framing magic followed by two
    bytes that are no pickle. *)
Lemma legacy_scan_err_iff_invalid_magic_witness :
  exists S d,
    scan_bytes PickleTools.genops Torch._is_zipfile Torch._should_read_directly
      Torch.get_magic_number Torch.MAGIC_NUMBER Torch.zipfile_is_zipfile
      Torch.scan_no_members Torch.scan_no_members Torch.scan_no_members
      (stream_of legacy_garbage) (Some ".pt") = Some (Ok S, d)
    /\ scan_err S = false /\ scanned_files S = 1.
Proof.
  pose proof (legacy_scan_err_iff_invalid_magic PickleTools.genops
    Torch._is_zipfile Torch._should_read_directly Torch.get_magic_number
    Torch.MAGIC_NUMBER Torch.zipfile_is_zipfile Torch.scan_no_members
    Torch.scan_no_members Torch.scan_no_members (stream_of legacy_garbage) ".pt")
    as H.
  assert (Hext : ".pt" ∈ _pytorch_file_extensions)
    by (apply (bool_decide_unpack _); vm_compute; exact I).
  specialize (H Hext eq_refl eq_refl). cbv zeta in H.
  destruct H as [_ H].
  eexists _, _. split; [vm_compute; reflexivity|].
  specialize (H _ _ ltac:(vm_compute; reflexivity)).
  destruct H as (Hiff & _ & Hfiles).
  assert (Hmagic : fst (Torch.get_magic_number
            (if Torch._should_read_directly (stream_of legacy_garbage)
                && (pos (stream_of legacy_garbage) =? 0)%nat
             then seek_start (stream_of legacy_garbage)
             else stream_of legacy_garbage)) = Some Torch.MAGIC_NUMBER)
    by (vm_compute; reflexivity).
  split; [|exact (Hfiles Hmagic)].
  destruct (scan_err _) eqn:E; [|reflexivity].
  exfalso. apply (proj1 Hiff); [reflexivity | exact Hmagic].
Defined.

(** ** The array scanner and the zip walker *)

Lemma read_n_seek_back (n : nat) (data : stream) :
  let '(magic, d) := read_n n data in
  magic = take n (remaining data)
  /\ seek_back (min n (length magic)) d = Ok data.
Proof.
  unfold read_n, seek_back. cbn [pos buf in_memory]. split; [reflexivity|].
  assert (Hlen : (length (take n (remaining data)) <= n)%nat)
    by (rewrite length_take; lia).
  rewrite Nat.min_r by exact Hlen.
  replace (pos data + length (take n (remaining data))
           <? length (take n (remaining data)))%nat with false
    by (symmetry; apply Nat.ltb_ge; lia).
  cbn [andb]. f_equal. destruct data as [b p m]. cbn [pos buf in_memory].
  f_equal. lia.
Qed.

Lemma merge_empty_l (r : ScanResult) : merge empty_result r = r.
Proof. destruct r. reflexivity. Qed.

Lemma merge_empty_r (r : ScanResult) : merge r empty_result = r.
Proof.
  destruct r as [g s i f e]. unfold merge, empty_result. cbn.
  rewrite app_nil_r, !Z.add_0_r, orb_false_r. reflexivity.
Qed.

(** The counters of one pickle scan. *)
Lemma scan_pickle_bytes_counts genops data mp S d :
  scan_pickle_bytes genops data mp = Some (Ok S, d) ->
  issues_consistent S
  /\ 0 <= infected_files S /\ infected_files S <= scanned_files S
  /\ scanned_files S <= 1.
Proof.
  intros H. split; [eapply scan_pickle_bytes_issues_consistent, H|].
  apply scan_pickle_bytes_cases in H as [(raw & err & Hb)| ->].
  - destruct (build_counters raw err S Hb) as (Hs & _ & Hi).
    rewrite Hs, Hi. destruct (0 <? issues_count S); lia.
  - cbn. lia.
Qed.

Section WalkerFacts.

Variable genops : stream -> list op * option string * stream.
Variable MAGIC_PREFIX : list byte.
Variable read_array_header : stream -> res bool * stream.
Variable zip_open : string -> zip_open_result.

Local Abbreviation scan_numpy' :=
  (Walkers.scan_numpy genops MAGIC_PREFIX read_array_header).
Local Abbreviation scan_zip_members' :=
  (Walkers.scan_zip_members genops MAGIC_PREFIX read_array_header zip_open).
Local Abbreviation scan_zip_bytes' :=
  (Walkers.scan_zip_bytes genops MAGIC_PREFIX read_array_header zip_open).

Lemma scan_numpy_cases (data : stream) :
  let magic := take (length MAGIC_PREFIX) (remaining data) in
  scan_numpy' data =
    if starts_with [x50; x4b; x03; x04] magic
       || starts_with [x50; x4b; x05; x06] magic
    then Some (Raise (ValueError ".npz file not handled as zip file"), data)
    else if bool_decide (magic = MAGIC_PREFIX)
    then match read_array_header data with
         | (Raise e, d) => Some (Raise e, d)
         | (Ok hasobject, d) =>
             if hasobject then scan_pickle_bytes genops d true
             else Some (Ok (mkScanResult [] 1 0 0 false), d)
         end
    else scan_pickle_bytes genops data true.
Proof.
  cbv zeta. unfold Walkers.scan_numpy.
  pose proof (read_n_seek_back (length MAGIC_PREFIX) data) as H.
  destruct (read_n (length MAGIC_PREFIX) data) as [magic d].
  destruct H as [-> ->]. reflexivity.
Qed.

(** X15. [scan_numpy] looks at the first bytes and puts the stream back
    where it was, on a file as on an in-memory stream and also when
    fewer bytes are left than the prefix is long: a zip signature gives
    [ValueError] with the stream untouched; input that does not start
    with the array prefix is scanned as a pickle from the original
    position; an array whose header declares no object is reported as
    one scanned file without globals, and one that declares objects is
    scanned as a pickle from the end of the header. *)
Theorem scan_numpy_restores_position_and_dispatches (data : stream) :
  let magic := take (length MAGIC_PREFIX) (remaining data) in
  let zip := starts_with [x50; x4b; x03; x04] magic
             || starts_with [x50; x4b; x05; x06] magic in
  (zip = true ->
   scan_numpy' data
   = Some (Raise (ValueError ".npz file not handled as zip file"), data))
  /\ (zip = false -> magic <> MAGIC_PREFIX ->
      scan_numpy' data = scan_pickle_bytes genops data true)
  /\ (zip = false -> magic = MAGIC_PREFIX ->
      forall d, read_array_header data = (Ok false, d) ->
      scan_numpy' data = Some (Ok (mkScanResult [] 1 0 0 false), d))
  /\ (zip = false -> magic = MAGIC_PREFIX ->
      forall d, read_array_header data = (Ok true, d) ->
      scan_numpy' data = scan_pickle_bytes genops d true).
Proof.
  cbv zeta. rewrite scan_numpy_cases. cbv zeta.
  repeat split.
  - intros ->. reflexivity.
  - intros -> Hne. by rewrite bool_decide_eq_false_2.
  - intros -> He d Hh. rewrite bool_decide_eq_true_2 by exact He.
    by rewrite Hh.
  - intros -> He d Hh. rewrite bool_decide_eq_true_2 by exact He.
    by rewrite Hh.
Qed.

Lemma scan_numpy_counts (data : stream) (S : ScanResult) (d : stream) :
  scan_numpy' data = Some (Ok S, d) ->
  issues_consistent S
  /\ 0 <= infected_files S /\ infected_files S <= scanned_files S
  /\ scanned_files S <= 1.
Proof.
  rewrite scan_numpy_cases. cbv zeta.
  destruct (_ || _); [discriminate|].
  destruct (bool_decide _).
  - destruct (read_array_header data) as [[[|]|e] d1]; try discriminate.
    + apply scan_pickle_bytes_counts.
    + intros H. simplify_eq. split; [reflexivity|cbn; lia].
  - apply scan_pickle_bytes_counts.
Qed.

Lemma scan_zip_members_acc (file_names : list string) :
  forall acc,
    scan_zip_members' file_names acc =
      match scan_zip_members' file_names empty_result with
      | Some (Ok R) => Some (Ok (merge acc R))
      | other => other
      end.
Proof.
  induction file_names as [|file_name rest IH]; intros acc.
  - cbn [Walkers.scan_zip_members]. by rewrite merge_empty_r.
  - cbn [Walkers.scan_zip_members].
    assert (Hstep : forall sr,
      scan_zip_members' rest (merge acc sr) =
        match scan_zip_members' rest (merge empty_result sr) with
        | Some (Ok R) => Some (Ok (merge acc R))
        | other => other
        end).
    { intros sr. rewrite (IH (merge acc sr)), (IH (merge empty_result sr)).
      destruct (scan_zip_members' rest empty_result) as [[R|e]|]; try reflexivity.
      by rewrite merge_empty_l, merge_assoc. }
    destruct (zip_open file_name) as [file| |e]; [|apply IH|reflexivity].
    destruct (_ || _).
    + destruct (scan_pickle_bytes genops file true) as [[[sr|e] d]|];
        [apply Hstep|reflexivity|reflexivity].
    + destruct (_ || _).
      * destruct (scan_numpy' file) as [[[sr|e] d]|];
          [apply Hstep|reflexivity|reflexivity].
      * apply IH.
Qed.

Lemma scan_zip_members_app (l1 l2 : list string) :
  forall acc,
    scan_zip_members' (l1 ++ l2) acc =
      match scan_zip_members' l1 acc with
      | Some (Ok R) => scan_zip_members' l2 R
      | other => other
      end.
Proof.
  induction l1 as [|file_name rest IH]; intros acc; [reflexivity|].
  cbn [app Walkers.scan_zip_members].
  destruct (zip_open file_name) as [file| |e]; [|apply IH|reflexivity].
  destruct (_ || _).
  - destruct (scan_pickle_bytes genops file true) as [[[sr|e] d]|];
      [apply IH|reflexivity|reflexivity].
  - destruct (_ || _).
    + destruct (scan_numpy' file) as [[[sr|e] d]|];
        [apply IH|reflexivity|reflexivity].
    + apply IH.
Qed.

(** X16. The walk over the members of an archive is the [merge], in
    order, of the walks over a first and a second part of the name
    list: it returns a result exactly when both parts do, and then the
    result is the [merge] of theirs; an exception or a walk that does
    not finish in the first part is the outcome of the whole. *)
Theorem zip_walk_is_merge_of_parts (l1 l2 : list string) :
  scan_zip_bytes' (l1 ++ l2) =
    match scan_zip_bytes' l1 with
    | Some (Ok R1) =>
        match scan_zip_bytes' l2 with
        | Some (Ok R2) => Some (Ok (merge R1 R2))
        | other => other
        end
    | other => other
    end.
Proof.
  unfold Walkers.scan_zip_bytes. fold empty_result.
  rewrite scan_zip_members_app.
  destruct (scan_zip_members' l1 empty_result) as [[R1|e]|]; try reflexivity.
  apply scan_zip_members_acc.
Qed.

Lemma scan_zip_members_counts (file_names : list string) :
  forall acc R,
    scan_zip_members' file_names acc = Some (Ok R) ->
    issues_consistent acc ->
    issues_consistent R
    /\ infected_files acc <= infected_files R
    /\ infected_files R - infected_files acc
       <= scanned_files R - scanned_files acc
    /\ scanned_files R - scanned_files acc <= Z.of_nat (length file_names).
Proof.
  induction file_names as [|file_name rest IH]; intros acc R H Hacc.
  - cbn [Walkers.scan_zip_members] in H. simplify_eq. cbn [length].
    split; [assumption|lia].
  - cbn [Walkers.scan_zip_members] in H.
    assert (Hskip : scan_zip_members' rest acc = Some (Ok R) ->
      issues_consistent R
      /\ infected_files acc <= infected_files R
      /\ infected_files R - infected_files acc
         <= scanned_files R - scanned_files acc
      /\ scanned_files R - scanned_files acc
         <= Z.of_nat (length (file_name :: rest))).
    { intros H'. destruct (IH acc R H' Hacc) as (? & ? & ? & ?).
      cbn [length]. repeat split; try assumption. lia. }
    assert (Hstep : forall sr,
      issues_consistent sr ->
      0 <= infected_files sr -> infected_files sr <= scanned_files sr ->
      scanned_files sr <= 1 ->
      scan_zip_members' rest (merge acc sr) = Some (Ok R) ->
      issues_consistent R
      /\ infected_files acc <= infected_files R
      /\ infected_files R - infected_files acc
         <= scanned_files R - scanned_files acc
      /\ scanned_files R - scanned_files acc
         <= Z.of_nat (length (file_name :: rest))).
    { intros sr Hc H0 H1 H2 H'.
      destruct (IH (merge acc sr) R H' (merge_issues_consistent _ _ Hacc Hc))
        as (? & ? & ? & ?).
      unfold merge in *. cbn [infected_files scanned_files] in *.
      cbn [length]. repeat split; try assumption; lia. }
    destruct (zip_open file_name) as [file| |e]; [|by apply Hskip|discriminate].
    destruct (_ || _).
    + destruct (scan_pickle_bytes genops file true) as [[[sr|e] d]|] eqn:Hs;
        try discriminate.
      destruct (scan_pickle_bytes_counts _ _ _ _ _ Hs) as (? & ? & ? & ?).
      by apply (Hstep sr).
    + destruct (_ || _); [|by apply Hskip].
      destruct (scan_numpy' file) as [[[sr|e] d]|] eqn:Hs; try discriminate.
      destruct (scan_numpy_counts _ _ _ Hs) as (? & ? & ? & ?).
      by apply (Hstep sr).
Qed.

(** X17. A result of the zip walker counts its dangerous globals in
    [issues_count], and has no more infected files than scanned files
    and no more scanned files than the archive has members. *)
Theorem zip_walk_counters (file_names : list string) (R : ScanResult) :
  scan_zip_bytes' file_names = Some (Ok R) ->
  issues_consistent R
  /\ 0 <= infected_files R
  /\ infected_files R <= scanned_files R
  /\ scanned_files R <= Z.of_nat (length file_names).
Proof.
  intros H. unfold Walkers.scan_zip_bytes in H.
  apply scan_zip_members_counts in H; [|reflexivity].
  cbn [infected_files scanned_files] in H. destruct H as (? & ? & ? & ?).
  repeat split; try assumption; lia.
Qed.

Lemma no_pickle_magic (bytes : list byte) :
  head bytes <> Some x80 ->
  existsb (fun mn => starts_with mn bytes) _pickle_magic_bytes = false.
Proof.
  intros Hh. unfold _pickle_magic_bytes. cbn [existsb].
  assert (Hno : forall b, starts_with [x80; b] bytes = false).
  { intros b. unfold starts_with. apply bool_decide_eq_false_2.
    destruct bytes as [|b0 bytes]; [discriminate|].
    cbn [length take]. intros E. apply Hh. cbn [head]. congruence. }
  rewrite !Hno. reflexivity.
Qed.

Lemma no_numpy_magic (bytes : list byte) :
  head bytes <> Some x93 -> starts_with _numpy_magic_bytes bytes = false.
Proof.
  intros Hh. unfold starts_with. apply bool_decide_eq_false_2.
  destruct bytes as [|b0 bytes]; [discriminate|].
  unfold _numpy_magic_bytes. cbn [length take list_byte_of_string].
  intros E. apply Hh. cbn [head]. congruence.
Qed.

Lemma read_n_head (n : nat) (file : stream) :
  head (fst (read_n (S n) file)) = head (remaining file).
Proof.
  unfold read_n. cbn [fst]. destruct (remaining file); reflexivity.
Qed.

(** X18. A member of a zip archive is chosen by its extension or by its
    first bytes only: a member whose extension is neither a pickle nor
    an array extension and whose content starts with neither [0x80] nor
    [0x93] is skipped, whatever it holds, and a member whose opening is
    refused with [BadZipFile] or [RuntimeError] is skipped too; either
    leaves the result of the walk as it is without the member. *)
Theorem zip_member_is_chosen_by_extension_or_magic
    (file_name : string) (rest : list string) (result : ScanResult) :
  (forall file,
      zip_open file_name = ZipOpened file ->
      snd (splitext file_name) ∉ _pickle_file_extensions ->
      snd (splitext file_name) ∉ _numpy_file_extensions ->
      head (remaining file) <> Some x80 ->
      head (remaining file) <> Some x93 ->
      scan_zip_members' (file_name :: rest) result
      = scan_zip_members' rest result)
  /\ (zip_open file_name = ZipCaught ->
      scan_zip_members' (file_name :: rest) result
      = scan_zip_members' rest result).
Proof.
  split.
  - intros file Hopen Hp Hn H80 H93.
    cbn [Walkers.scan_zip_members]. rewrite Hopen.
    rewrite (bool_decide_eq_false_2 _ Hp), (bool_decide_eq_false_2 _ Hn).
    rewrite no_pickle_magic by (rewrite read_n_head; exact H80).
    rewrite no_numpy_magic by (rewrite read_n_head; exact H93).
    reflexivity.
  - intros Hopen. cbn [Walkers.scan_zip_members]. by rewrite Hopen.
Qed.

End WalkerFacts.

(** X17, witness: the archive with [data.pkl] and [model.bin]. *)
Lemma zip_walk_counters_witness :
  let R := mkScanResult [g_os_system] 1 1 1 false in
  issues_consistent R
  /\ 0 <= infected_files R
  /\ infected_files R <= scanned_files R
  /\ scanned_files R <= Z.of_nat (length ["data.pkl"; "model.bin"]).
Proof.
  refine (zip_walk_counters PickleTools.genops _numpy_magic_bytes
            header_without_object archive_two_members
            ["data.pkl"; "model.bin"] (mkScanResult [g_os_system] 1 1 1 false) _).
  vm_compute. reflexivity.
Defined.

(** X18, witness: [model.bin] holds the pickle of [os.system] and is
    skipped. *)
Lemma zip_member_is_chosen_by_extension_or_magic_witness :
  Walkers.scan_zip_members PickleTools.genops _numpy_magic_bytes
    header_without_object archive_two_members ["model.bin"] empty_result
  = Some (Ok empty_result).
Proof.
  refine (proj1 (zip_member_is_chosen_by_extension_or_magic PickleTools.genops
            _numpy_magic_bytes header_without_object archive_two_members
            "model.bin" [] empty_result)
            (stream_of pickle_os_system) eq_refl _ _ _ _).
  - apply (bool_decide_unpack _). vm_compute. exact I.
  - apply (bool_decide_unpack _). vm_compute. exact I.
  - discriminate.
  - discriminate.
Defined.

(** ** The directory scan *)

Section DirectoryFacts.

Variable genops : stream -> list op * option string * stream.
Variable _is_zipfile : stream -> bool.
Variable _should_read_directly : stream -> bool.
Variable get_magic_number : stream -> option Z * stream.
Variable MAGIC_NUMBER : Z.
Variable zipfile_is_zipfile : stream -> bool.
Variable scan_zip_bytes : stream -> outcome ScanResult.
Variable scan_7z_bytes : stream -> outcome ScanResult.

Local Abbreviation scan_bytes_with scan_numpy :=
  (scan_bytes genops _is_zipfile _should_read_directly get_magic_number
     MAGIC_NUMBER zipfile_is_zipfile scan_zip_bytes scan_7z_bytes scan_numpy).
Local Abbreviation scan_directory_files_with scan_numpy :=
  (scan_directory_files genops _is_zipfile _should_read_directly
     get_magic_number MAGIC_NUMBER zipfile_is_zipfile scan_zip_bytes
     scan_7z_bytes scan_numpy).
Local Abbreviation scan_directory_path_with scan_numpy :=
  (scan_directory_path genops _is_zipfile _should_read_directly
     get_magic_number MAGIC_NUMBER zipfile_is_zipfile scan_zip_bytes
     scan_7z_bytes scan_numpy).
Local Abbreviation scan_file_path_with scan_numpy :=
  (scan_file_path genops _is_zipfile _should_read_directly
     get_magic_number MAGIC_NUMBER zipfile_is_zipfile scan_zip_bytes
     scan_7z_bytes scan_numpy).

Variable scan_numpy : stream -> outcome ScanResult.

(** The files that the extension test of the walk lets pass. *)
Local Abbreviation kept_files files :=
  (filter (fun f : string * list byte =>
             skipped_extension (snd (splitext (fst f))) = false) files).

Lemma scan_directory_files_kept (files : list (string * list byte)) :
  forall acc,
    scan_directory_files_with scan_numpy files acc
    = scan_directory_files_with scan_numpy (kept_files files) acc.
Proof.
  induction files as [|[file_name content] rest IH]; intros acc; [reflexivity|].
  destruct (skipped_extension (snd (splitext file_name))) eqn:Hk.
  - rewrite filter_cons_False by (cbn [fst]; congruence).
    cbn [scan_directory_files]. rewrite Hk. apply IH.
  - rewrite filter_cons_True by (cbn [fst]; exact Hk).
    cbn [scan_directory_files]. rewrite Hk.
    destruct (scan_bytes_with scan_numpy _ _) as [[[sr|e] d]|];
      [apply IH|reflexivity|reflexivity].
Qed.

(** X19. A directory scan leaves out every file whose extension is not
    a zip, a pickle or a tensor-archive extension: its outcome is that
    of the walk over the other files alone.  A file [.npy] or without
    extension is left out wherever it comes in the walk and whatever it
    holds, although [scan_file_path] hands a file [.npy] to
    [scan_numpy]. *)
Theorem directory_scan_skips_array_files (files : list (string * list byte)) :
  scan_directory_path_with scan_numpy files
  = scan_directory_path_with scan_numpy (kept_files files)
  /\ (forall file_name content before after,
        snd (splitext file_name) = ".npy" \/ snd (splitext file_name) = "" ->
        scan_directory_path_with scan_numpy
          (before ++ (file_name, content) :: after)
        = scan_directory_path_with scan_numpy (before ++ after))
  /\ (forall file_name content,
        snd (splitext file_name) = ".npy" ->
        scan_file_path_with scan_numpy file_name content
        = scan_numpy (file_of content)).
Proof.
  split; [apply scan_directory_files_kept|]. split.
  - intros file_name content before after Hext.
    unfold scan_directory_path.
    rewrite (scan_directory_files_kept
               (before ++ (file_name, content) :: after)),
            (scan_directory_files_kept (before ++ after)).
    rewrite !filter_app. f_equal. f_equal.
    apply filter_cons_False. cbn [fst].
    destruct Hext as [-> | ->]; discriminate.
  - intros file_name content Hext. unfold scan_file_path, scan_bytes.
    rewrite Hext. reflexivity.
Qed.

Lemma scan_directory_files_acc (files : list (string * list byte)) :
  forall acc,
    scan_directory_files_with scan_numpy files acc =
      match scan_directory_files_with scan_numpy files empty_result with
      | Some (Ok R) => Some (Ok (merge acc R))
      | other => other
      end.
Proof.
  induction files as [|[file_name content] rest IH]; intros acc.
  - cbn [scan_directory_files]. by rewrite merge_empty_r.
  - cbn [scan_directory_files].
    destruct (skipped_extension _); [apply IH|].
    destruct (scan_bytes_with scan_numpy _ _) as [[[sr|e] d]|];
      [|reflexivity|reflexivity].
    rewrite (IH (merge acc sr)), (IH (merge empty_result sr)).
    destruct (scan_directory_files_with scan_numpy rest empty_result)
      as [[R|e]|]; try reflexivity.
    by rewrite merge_empty_l, merge_assoc.
Qed.

(** X20. A directory scan is the [merge], in the order of the walk, of
    what [scan_file_path] gives for each file whose extension passes
    the test: the first exception of a file scan ends it, a file with
    another extension adds nothing. *)
Theorem directory_scan_is_merge_of_file_scans
    (file_name : string) (content : list byte)
    (rest : list (string * list byte)) :
  scan_directory_path_with scan_numpy [] = Some (Ok (mkScanResult [] 0 0 0 false))
  /\ scan_directory_path_with scan_numpy ((file_name, content) :: rest) =
       if skipped_extension (snd (splitext file_name))
       then scan_directory_path_with scan_numpy rest
       else match scan_file_path_with scan_numpy file_name content with
            | None => None
            | Some (Raise e, _) => Some (Raise e)
            | Some (Ok sr, _) =>
                match scan_directory_path_with scan_numpy rest with
                | Some (Ok R) => Some (Ok (merge sr R))
                | other => other
                end
            end.
Proof.
  split; [reflexivity|].
  unfold scan_directory_path, scan_file_path. fold empty_result.
  cbn [scan_directory_files].
  destruct (skipped_extension _); [reflexivity|].
  destruct (scan_bytes_with scan_numpy _ _) as [[[sr|e] d]|];
    [|reflexivity|reflexivity].
  rewrite scan_directory_files_acc, merge_empty_l.
  destruct (scan_directory_files_with scan_numpy rest empty_result)
    as [[R|e]|]; reflexivity.
Qed.

End DirectoryFacts.

(** ** Operands taken from the memo table *)

Lemma get_is_no_put (nm : string) :
  name_in nm ["GET"; "BINGET"; "LONG_BINGET"] = true ->
  name_in nm ["MEMOIZE"; "PUT"; "BINPUT"; "LONG_BINPUT"] = false.
Proof.
  unfold name_in. intros H. apply bool_decide_eq_true_1 in H.
  apply bool_decide_eq_false_2.
  repeat (apply elem_of_cons in H as [-> | H];
          [intros Hin; by repeat (apply elem_of_cons in Hin as [? | Hin];
                                  [discriminate|]);
                       apply elem_of_nil in Hin|]).
  by apply elem_of_nil in H.
Qed.

(** X21. A [STACK_GLOBAL] whose two operands are get opcodes right
    before it (not at index 0) takes module and name from the memo
    table; a key that the table does not hold raises [KeyError], the
    operand next to the [STACK_GLOBAL] being looked up first. *)
Theorem stack_global_resolves_gets (memo : gmap pyval pyval) (ops : list op)
    (k : nat) (nm1 nm2 : string) (i j : Z) :
  (1 <= k)%nat ->
  ops !! k = Some (nm1, PInt i) ->
  ops !! S k = Some (nm2, PInt j) ->
  name_in nm1 ["GET"; "BINGET"; "LONG_BINGET"] = true ->
  name_in nm2 ["GET"; "BINGET"; "LONG_BINGET"] = true ->
  stack_global memo ops (S (S k)) =
    match memo !! PInt j, memo !! PInt i with
    | Some n, Some m => Ok [m; n]
    | Some _, None => Raise (KeyError (PInt i))
    | None, _ => Raise (KeyError (PInt j))
    end.
Proof.
  intros Hk H1 H2 Hg1 Hg2. unfold stack_global.
  replace (S (S k) - 1)%nat with (S (S (k - 1))) by lia.
  cbn [seq collect_values].
  replace (S (S k) - 1)%nat with (S k) by lia.
  replace (S (S k) - 2)%nat with k by lia.
  rewrite H2, (get_is_no_put nm2 Hg2), Hg2.
  cbn [py_int bind]. unfold memo_get.
  destruct (memo !! PInt j) as [n|]; [|reflexivity].
  cbn [bind app length Nat.eqb].
  rewrite H1, (get_is_no_put nm1 Hg1), Hg1.
  cbn [py_int bind].
  destruct (memo !! PInt i) as [m|]; reflexivity.
Qed.

(** X21, witness: [BINGET 0], [BINGET 1], [STACK_GLOBAL] after a
    [PROTO], with [builtins] and [eval] in the table. *)
Lemma stack_global_resolves_gets_witness :
  stack_global (<[PInt 0 := PStr "builtins"]> {[PInt 1 := PStr "eval"]})
    [("PROTO", PInt 4); ("BINGET", PInt 0); ("BINGET", PInt 1);
     ("STACK_GLOBAL", PNone); ("STOP", PNone)] 3
  = Ok [PStr "builtins"; PStr "eval"].
Proof.
  refine (stack_global_resolves_gets
            (<[PInt 0 := PStr "builtins"]> {[PInt 1 := PStr "eval"]})
            [("PROTO", PInt 4); ("BINGET", PInt 0); ("BINGET", PInt 1);
             ("STACK_GLOBAL", PNone); ("STOP", PNone)]
            1 "BINGET" "BINGET" 0 1 _ eq_refl eq_refl eq_refl eq_refl).
  lia.
Defined.

(** ** A scan without error has read the stream *)

Lemma list_globals_loop_reads_all genops (fuel : nat) :
  forall data memo gl g d,
    list_globals_loop genops fuel data true memo gl = Some (Ok g, d) ->
    (length (remaining d) <= 1)%nat.
Proof.
  induction fuel as [|fuel IH]; intros data memo gl g d H; [discriminate|].
  cbn [list_globals_loop] in H.
  destruct (genops data) as [[ops err] d1].
  destruct (read1 d1) as [last d2] eqn:Hread.
  destruct (seek_back1 d2) as [d3|e] eqn:Hseek; [|discriminate].
  destruct (extract_globals ops (memo, gl)) as [[memo' gl']|e]; [|discriminate].
  cbn [negb] in H.
  destruct err as [msg|]; [discriminate|].
  destruct last as [b|]; [eapply IH, H|].
  simplify_eq.
  unfold read1 in Hread.
  destruct (buf d1 !! pos d1) eqn:Hlook; [discriminate|].
  simplify_eq. apply lookup_ge_None in Hlook.
  unfold seek_back1 in Hseek.
  destruct (_ && _); [discriminate|]. simplify_eq.
  unfold remaining. cbn [pos buf]. rewrite length_drop. lia.
Qed.

(** X22. A scan in multi-pickle mode that returns a result without
    [scan_err] has read the stream to its end, whatever the reader: at
    most the one byte that the loop steps back is left. *)
Theorem clean_scan_has_read_the_stream
    (genops : stream -> list op * option string * stream)
    (data d : stream) (S : ScanResult) :
  scan_pickle_bytes genops data true = Some (Ok S, d) ->
  scan_err S = false ->
  (length (remaining d) <= 1)%nat.
Proof.
  intros H Herr. unfold scan_pickle_bytes, _list_globals in H.
  destruct (list_globals_loop genops _ data true ∅ ∅) as [[[g|e] d']|] eqn:Hl;
    [| |discriminate].
  - simplify_eq. eapply list_globals_loop_reads_all, Hl.
  - destruct e as [msg [raw|]| | | | | | |]; try discriminate.
    + simplify_eq. destruct (build_counters raw true S H) as (_ & He & _).
      congruence.
    + by simplify_eq.
Qed.

(** X22, witness: the pickle of [os.system], twelve bytes. *)
Lemma clean_scan_has_read_the_stream_witness :
  (length (remaining (mkStream pickle_os_system 11 true)) <= 1)%nat.
Proof.
  refine (clean_scan_has_read_the_stream PickleTools.genops
            (stream_of pickle_os_system) (mkStream pickle_os_system 11 true)
            (mkScanResult [g_os_system] 1 1 1 false) _ eq_refl).
  vm_compute. reflexivity.
Defined.
